(** * empfindung: perceptual colour difference (Delta E) in CIE L*a*b* space

    A shallow embedding of [lib/colorUtils.js], [lib/DeltaE.js],
    [lib/trigDegreeLib.js] and [lib/ColorError.js].

    The JavaScript code computes on [Number]s.  The embedding is written once,
    over an interface [JSNumber] of the arithmetic the source uses (and
    [JSMath] for the transcendental functions of [Math]), and is read in two
    ways:

    - [Binary64]: IEEE 754 binary64 (Rocq's primitive floats), the numbers the
      program really runs on; every operation rounds, [NaN] exists, and the
      transcendental functions of the host's [Math] object, which ECMAScript
      leaves implementation-approximated, stay parameters;
    - [Exact]: real numbers, the mathematics the formulas are meant to
      compute.

    Validation and the shape of the formulas are proved for every reading at
    once.  What the specification says of the formulas themselves (ranges of
    angles, symmetry, zero distance between identical colours) is proved in
    [Exact]; what it says of rounding and [NaN] is proved in [Binary64].
    Rounding can move a value of [Exact] by an ulp in [Binary64]: see
    [Binary64Facts.labToLch_rounds_up_to_360]. *)

From Stdlib Require Import Floats Uint63 ZArith QArith Reals Qreals.
From Stdlib Require Import String List Bool Lra Lia.
Import ListNotations.

Set Warnings "-inexact-float".

(** ** The numbers of the source *)

Declare Scope js_scope.
Delimit Scope js_scope with js.

(** Arithmetic, comparison and the exactly specified part of [Math].  A
    literal is given by its decimal value; [-128] in the source is read as the
    literal of -128. *)
Class JSNumber (num : Type) : Type := {
  literal : Q -> num;              (* a numeric literal of the source text *)
  add : num -> num -> num;         (* x + y *)
  sub : num -> num -> num;         (* x - y *)
  mul : num -> num -> num;         (* x * y *)
  div : num -> num -> num;         (* x / y *)
  rem : num -> num -> num;         (* x % y : remainder, sign of the dividend *)
  neg : num -> num;                (* -x *)
  lt : num -> num -> bool;         (* x < y *)
  le : num -> num -> bool;         (* x <= y *)
  eq : num -> num -> bool;         (* x === y *)
  Math_sqrt : num -> num;
  Math_abs : num -> num;
  Math_PI : num
}.

(** The implementation-approximated functions of [Math]. *)
Class JSMath (num : Type) : Type := {
  Math_cos : num -> num;
  Math_sin : num -> num;
  Math_exp : num -> num;
  Math_atan2 : num -> num -> num;
  Math_pow : num -> num -> num
}.

Notation "$ q" := (literal q%Q) (at level 1, format "$ q") : js_scope.
Notation "x + y" := (add x y) : js_scope.
Notation "x - y" := (sub x y) : js_scope.
Notation "x * y" := (mul x y) : js_scope.
Notation "x / y" := (div x y) : js_scope.
Notation "x 'mod' y" := (rem x y) : js_scope.
Notation "- x" := (neg x) : js_scope.
Notation "x <? y" := (lt x y) : js_scope.
Notation "x <=? y" := (le x y) : js_scope.
Notation "x >=? y" := (le y x) : js_scope.
Notation "x === y" := (eq x y) (at level 70, no associativity) : js_scope.

(** A 3-channel colour, [L*a*b*] or [L*C*H*] (the Flow type [Color]). *)
Definition Color (num : Type) : Type := (num * num * num)%type.

(** ** lib/ColorError.js *)

Inductive ColorError (num : Type) : Type :=
| ChannelCountError (x : list num) (expectedNumChannels : nat)
| CoordinateRangeError (color : Color num) (checks : list bool).
Arguments ChannelCountError {num} x expectedNumChannels.
Arguments CoordinateRangeError {num} color checks.

Inductive Channel : Type := l_star | a_star | b_star.

(** The range each message line of a [CoordinateRangeError] names. *)
Definition Channel_range (ch : Channel) : Q * Q :=
  match ch with
  | l_star => (0, 100)
  | a_star => (-128, 127)
  | b_star => (-128, 127)
  end%Q.

(** The array [err] built by the constructor of [CoordinateRangeError]: one
    entry per channel whose check is not true, with the channel's value.  (A
    missing element of the destructured flags is [undefined], which [!]
    turns into true.) *)
Definition CoordinateRangeError_err {num} (color : Color num) (checks : list bool)
  : list (Channel * num) :=
  let '(l, a, b) := color in
  let lCheck := nth 0 checks false in
  let aCheck := nth 1 checks false in
  let bCheck := nth 2 checks false in
  (if negb lCheck then [(l_star, l)] else []) ++
  (if negb aCheck then [(a_star, a)] else []) ++
  (if negb bCheck then [(b_star, b)] else []).

(** The outcome of a call that may throw. *)
Inductive Result (E A : Type) : Type :=
| Ok (a : A)
| Throw (e : E).
Arguments Ok {E A} a.
Arguments Throw {E A} e.

(** ** lib/colorUtils.js: validation *)

Section Validation.
Context {num : Type} {N : JSNumber num}.
Local Open Scope js_scope.

Definition _isValidLabColor (x : Color num) : list bool :=
  let '(l, a, b) := x in
  let lWithinRange := (l >=? $0) && (l <=? $100) in
  let aWithinRange := (a >=? $(-128)) && (a <=? $127) in
  let bWithinRange := (b >=? $(-128)) && (b <=? $127) in
  [lWithinRange; aWithinRange; bWithinRange].

Definition NUM_CHANNELS : nat := 3.

(** The second half of [_checkColor], on the 3-channel colour. *)
Definition _checkColor_range (threeChannelColor : Color num)
  : Result (ColorError num) (Color num) :=
  let colorCoordTest := _isValidLabColor threeChannelColor in
  if negb (forallb (fun e => e) colorCoordTest)
  then Throw (CoordinateRangeError threeChannelColor colorCoordTest)
  else Ok threeChannelColor.

(** [_checkColor].  The three shapes of [x] are the three paths of the
    source: [x.length === NUM_CHANNELS] (the colour is [x]),
    [x.length > NUM_CHANNELS] (the colour is [x.slice(0, NUM_CHANNELS)] when
    [discardExcessChannels], a throw otherwise) and [x.length < NUM_CHANNELS]
    (a throw). *)
Definition _checkColor (x : list num) (discardExcessChannels : bool)
  : Result (ColorError num) (Color num) :=
  match x with
  | [l; a; b] => _checkColor_range (l, a, b)
  | l :: a :: b :: _ :: _ =>
      if discardExcessChannels
      then _checkColor_range (l, a, b)
      else Throw (ChannelCountError x NUM_CHANNELS)
  | _ => Throw (ChannelCountError x NUM_CHANNELS)
  end.

(** The decorator: [_checkColor] on the first argument, then on the second,
    then the decorated function on the two validated colours.  (The default
    [true] of [discardExcessChannels] is never used: every method passes
    [false].) *)
Definition validateColorInputs {A : Type} (discardExcessChannels : bool)
    (originalFunc : Color num -> Color num -> A) (x y : list num)
  : Result (ColorError num) A :=
  match _checkColor x discardExcessChannels with
  | Throw e => Throw e
  | Ok args0 =>
      match _checkColor y discardExcessChannels with
      | Throw e => Throw e
      | Ok args1 => Ok (originalFunc args0 args1)
      end
  end.
End Validation.

(** ** lib/trigDegreeLib.js *)

Section TrigDegreeLib.
Context {num : Type} {N : JSNumber num} {M : JSMath num}.
Local Open Scope js_scope.

Definition _radToDeg (x : num) : num := x * $180 / Math_PI.
Definition _degToRad (x : num) : num := x * Math_PI / $180.

Definition cosd (x : num) : num := Math_cos (_degToRad x).
Definition sind (x : num) : num := Math_sin (_degToRad x).
Definition atan2d (x y : num) : num := _radToDeg (Math_atan2 x y).
End TrigDegreeLib.

(** ** lib/colorUtils.js: conversion *)

Section Conversion.
Context {num : Type} {N : JSNumber num} {M : JSMath num}.
Local Open Scope js_scope.

(** [while (cond(s)) s = body(s);] with at most [fuel] executions of the
    body; [None] when the loop is still running after that. *)
Fixpoint while (fuel : nat) (cond : num -> bool) (body : num -> num) (s : num)
  : option num :=
  if cond s then
    match fuel with
    | O => None
    | S fuel' => while fuel' cond body (body s)
    end
  else Some s.

Definition labToLch (fuel : nat) (x : Color num) : option (Color num) :=
  let '(L, a, b) := x in
  let C := Math_sqrt (a * a + b * b) in
  let H := if C <=? $0 then $0 else atan2d b a in
  match while fuel (fun H => H >=? $360) (fun H => H - $360) H with
  | None => None
  | Some H =>
      match while fuel (fun H => H <? $0) (fun H => H + $360) H with
      | None => None
      | Some H => Some (L, C, H)
      end
  end.
End Conversion.

(** ** lib/DeltaE.js *)

(** The [const]s and [let]s of [cie1994], under the names of the source. *)
Module V1994.
Record t (num : Type) : Type := mk {
  kl : num; kc : num; kh : num; k1 : num; k2 : num;
  c1 : num; c2 : num;
  deltaA : num; deltaB : num; deltaC : num; deltaH : num; deltaL : num;
  sl : num; sc : num; sh : num;
  firstTerm : num; secondTerm : num; thirdTerm : num
}.
Arguments mk {num}.
Arguments kl {num}. Arguments kc {num}. Arguments kh {num}.
Arguments k1 {num}. Arguments k2 {num}.
Arguments c1 {num}. Arguments c2 {num}.
Arguments deltaA {num}. Arguments deltaB {num}. Arguments deltaC {num}.
Arguments deltaH {num}. Arguments deltaL {num}.
Arguments sl {num}. Arguments sc {num}. Arguments sh {num}.
Arguments firstTerm {num}. Arguments secondTerm {num}.
Arguments thirdTerm {num}.
End V1994.

(** The [const]s and [let]s of [ciede2000]. *)
Module V2000.
Record t (num : Type) : Type := mk {
  c1 : num; c2 : num;
  deltaLPrime : num; lBar : num; cBar : num;
  cBarPow7 : num; cCoeff : num; a1Prime : num; a2Prime : num;
  c1Prime : num; c2Prime : num; cBarPrime : num; deltaCPrime : num;
  h1Prime : num; h2Prime : num;
  deltaSmallHPrime : num; deltaBigHPrime : num; hBarPrime : num;
  T : num; slCoeff : num; sl : num; sc : num; sh : num;
  RtCoeff : num; Rt : num;
  kl : num; kc : num; kh : num;
  firstTerm : num; secondTerm : num; thirdTerm : num; fourthTerm : num
}.
Arguments mk {num}.
Arguments c1 {num}. Arguments c2 {num}.
Arguments deltaLPrime {num}. Arguments lBar {num}. Arguments cBar {num}.
Arguments cBarPow7 {num}. Arguments cCoeff {num}.
Arguments a1Prime {num}. Arguments a2Prime {num}.
Arguments c1Prime {num}. Arguments c2Prime {num}.
Arguments cBarPrime {num}. Arguments deltaCPrime {num}.
Arguments h1Prime {num}. Arguments h2Prime {num}.
Arguments deltaSmallHPrime {num}. Arguments deltaBigHPrime {num}.
Arguments hBarPrime {num}.
Arguments T {num}. Arguments slCoeff {num}.
Arguments sl {num}. Arguments sc {num}. Arguments sh {num}.
Arguments RtCoeff {num}. Arguments Rt {num}.
Arguments kl {num}. Arguments kc {num}. Arguments kh {num}.
Arguments firstTerm {num}. Arguments secondTerm {num}.
Arguments thirdTerm {num}. Arguments fourthTerm {num}.
End V2000.

(** The [const]s and [let]s of [cmc1984]. *)
Module V1984.
Record t (num : Type) : Type := mk {
  l : num; c : num;
  c1 : num; h1 : num; c2 : num;
  c1Pow4 : num; F : num; T : num;
  sl : num; sc : num; sh : num;
  deltaA : num; deltaB : num; deltaC : num; deltaH : num;
  firstTerm : num; secondTerm : num; thirdTerm : num
}.
Arguments mk {num}.
Arguments l {num}. Arguments c {num}.
Arguments c1 {num}. Arguments h1 {num}. Arguments c2 {num}.
Arguments c1Pow4 {num}. Arguments F {num}. Arguments T {num}.
Arguments sl {num}. Arguments sc {num}. Arguments sh {num}.
Arguments deltaA {num}. Arguments deltaB {num}. Arguments deltaC {num}.
Arguments deltaH {num}.
Arguments firstTerm {num}. Arguments secondTerm {num}.
Arguments thirdTerm {num}.
End V1984.


Section KlValue.
Context {num : Type} {N : JSNumber num}.
Local Open Scope js_scope.

Definition getklValueFromType (applicationType : string) : num :=
  if (applicationType =? "textiles")%string then $2
  else if (applicationType =? "graphicArts")%string then $1
  else $1.
End KlValue.

(** The static methods of [class DeltaE].  For each method [m], [m_body] is
    the method as written and [m] the method after its decorator
    [@validateColorInputs(false)], which is what a caller of [DeltaE.m]
    runs.  An optional string argument is an [option]: [None] is the omitted
    argument, which takes the default of the parameter list. *)
Module DeltaE.
Section Methods.
Context {num : Type} {N : JSNumber num} {M : JSMath num}.
Local Open Scope js_scope.

Definition cie1976_body (x y : Color num) : num :=
  let '(l1, a1, b1) := x in
  let '(l2, a2, b2) := y in
  let lDiff := l2 - l1 in
  let aDiff := a2 - a1 in
  let bDiff := b2 - b1 in
  Math_sqrt (lDiff * lDiff + aDiff * aDiff + bDiff * bDiff).

Definition cie1976 (x y : list num) : Result (ColorError num) num :=
  validateColorInputs false cie1976_body x y.

Definition cie1994_vars (x y : Color num) (applicationType : option string)
  : V1994.t num :=
  let '(l1, a1, b1) := x in
  let '(l2, a2, b2) := y in
  let applicationType :=
    match applicationType with
    | Some s => s
    | None => "graphicArts"%string
    end in
  let kl := getklValueFromType applicationType in
  let kc := $1 in
  let kh := $1 in
  let '(k1, k2) :=
    if (applicationType =? "textiles")%string then ($0.048, $0.014)
    else if (applicationType =? "graphicArts")%string then ($0.045, $0.015)
    else ($0.045, $0.015) in
  let c1 := Math_sqrt (a1 * a1 + b1 * b1) in
  let c2 := Math_sqrt (a2 * a2 + b2 * b2) in
  let deltaA := a1 - a2 in
  let deltaB := b1 - b2 in
  let deltaC := c1 - c2 in
  let deltaH := Math_sqrt (deltaA * deltaA + deltaB * deltaB - deltaC * deltaC) in
  let deltaL := l1 - l2 in
  let sl := $1 in
  let sc := $1 + k1 * c1 in
  let sh := $1 + k2 * c2 in
  let firstTerm := deltaL / (kl * sl) in
  let secondTerm := deltaC / (kc * sc) in
  let thirdTerm := deltaH / (kh * sh) in
  V1994.mk kl kc kh k1 k2 c1 c2 deltaA deltaB deltaC deltaH deltaL sl sc sh
           firstTerm secondTerm thirdTerm.

Definition cie1994_body (x y : Color num) (applicationType : option string) : num :=
  let v := cie1994_vars x y applicationType in
  Math_sqrt (V1994.firstTerm v * V1994.firstTerm v
             + V1994.secondTerm v * V1994.secondTerm v
             + V1994.thirdTerm v * V1994.thirdTerm v).

Definition cie1994 (x y : list num) (applicationType : option string)
  : Result (ColorError num) num :=
  validateColorInputs false (fun x y => cie1994_body x y applicationType) x y.

Definition ciede2000_vars (fuel : nat) (x y : Color num) : option (V2000.t num) :=
  let '(l1, a1, b1) := x in
  let '(l2, a2, b2) := y in
  match labToLch fuel (l1, a1, b1) with
  | None => None
  | Some (_1, c1, __1) =>
  match labToLch fuel (l2, a2, b2) with
  | None => None
  | Some (_2, c2, __2) =>
  let deltaLPrime := l2 - l1 in
  let lBar := (l1 + l2) / $2 in
  let cBar := (c1 + c2) / $2 in
  let cBarPow7 := Math_pow cBar $7 in
  let cCoeff := Math_sqrt (cBarPow7 / (cBarPow7 + Math_pow $25 $7)) in
  let a1Prime := a1 + (a1 / $2) * ($1 - cCoeff) in
  let a2Prime := a2 + (a2 / $2) * ($1 - cCoeff) in
  let c1Prime := Math_sqrt (a1Prime * a1Prime + b1 * b1) in
  let c2Prime := Math_sqrt (a2Prime * a2Prime + b2 * b2) in
  let cBarPrime := (c1Prime + c2Prime) / $2 in
  let deltaCPrime := c2Prime - c1Prime in
  let h1Prime :=
    if (a1Prime === $0) && (b1 === $0) then $0
    else atan2d b1 a1Prime mod $360 in
  let h2Prime :=
    if (a2Prime === $0) && (b2 === $0) then $0
    else atan2d b2 a2Prime mod $360 in
  let '(deltaSmallHPrime, deltaBigHPrime, hBarPrime) :=
    if (c1Prime === $0) || (c2Prime === $0) then
      ($0, $0, h1Prime + h2Prime)
    else
      let deltaSmallHPrime :=
        if Math_abs (h1Prime - h2Prime) <=? $180 then h2Prime - h1Prime
        else if h2Prime <=? h1Prime then h2Prime - h1Prime + $360
        else h2Prime - h1Prime - $360 in
      let deltaBigHPrime :=
        $2 * Math_sqrt (c1Prime * c2Prime) * sind (deltaSmallHPrime / $2) in
      let hBarPrime :=
        if Math_abs (h1Prime - h2Prime) <=? $180 then (h1Prime + h2Prime) / $2
        else if (h1Prime + h2Prime) <? $360 then (h1Prime + h2Prime + $360) / $2
        else (h1Prime + h2Prime - $360) / $2 in
      (deltaSmallHPrime, deltaBigHPrime, hBarPrime) in
  let T := $1 - $0.17 * cosd (hBarPrime - $30)
              + $0.24 * cosd ($2 * hBarPrime)
              + $0.32 * cosd ($3 * hBarPrime + $6)
              - $0.2 * cosd ($4 * hBarPrime - $63) in
  let slCoeff := (lBar - $50) * (lBar - $50) in
  let sl := $1 + ($0.015 * slCoeff) / Math_sqrt ($20 + slCoeff) in
  let sc := $1 + $0.045 * cBarPrime in
  let sh := $1 + $0.015 * cBarPrime * T in
  let RtCoeff :=
    $60 * Math_exp (- ((hBarPrime - $275) / $25) * ((hBarPrime - $275) / $25)) in
  let Rt := - $2 * cCoeff * sind RtCoeff in
  let kl := $1 in
  let kc := $1 in
  let kh := $1 in
  let firstTerm := deltaLPrime / (kl * sl) in
  let secondTerm := deltaCPrime / (kc * sc) in
  let thirdTerm := deltaBigHPrime / (kh * sh) in
  let fourthTerm := Rt * secondTerm * thirdTerm in
  Some (V2000.mk c1 c2 deltaLPrime lBar cBar cBarPow7 cCoeff a1Prime a2Prime
                 c1Prime c2Prime cBarPrime deltaCPrime h1Prime h2Prime
                 deltaSmallHPrime deltaBigHPrime hBarPrime
                 T slCoeff sl sc sh RtCoeff Rt kl kc kh
                 firstTerm secondTerm thirdTerm fourthTerm)
  end end.

Definition ciede2000_body (fuel : nat) (x y : Color num) : option num :=
  match ciede2000_vars fuel x y with
  | None => None
  | Some v =>
      Some (Math_sqrt (V2000.firstTerm v * V2000.firstTerm v
                       + V2000.secondTerm v * V2000.secondTerm v
                       + V2000.thirdTerm v * V2000.thirdTerm v
                       + V2000.fourthTerm v))
  end.

Definition ciede2000 (fuel : nat) (x y : list num)
  : Result (ColorError num) (option num) :=
  validateColorInputs false (ciede2000_body fuel) x y.

Definition cmc1984_vars (fuel : nat) (x y : Color num) (thresholdType : option string)
  : option (V1984.t num) :=
  let '(l1, a1, b1) := x in
  let '(l2, a2, b2) := y in
  let thresholdType :=
    match thresholdType with
    | Some s => s
    | None => "acceptability"%string
    end in
  let '(l, c) :=
    if (thresholdType =? "acceptability")%string then ($2, $1)
    else if (thresholdType =? "imperceptibility")%string then ($1, $1)
    else ($1, $1) in
  match labToLch fuel (l1, a1, b1) with
  | None => None
  | Some (_1, c1, h1) =>
  match labToLch fuel (l2, a2, b2) with
  | None => None
  | Some (_2, c2, __2) =>
  let c1Pow4 := c1 * c1 * c1 * c1 in
  let F := Math_sqrt (c1Pow4 / (c1Pow4 + $1900)) in
  let T :=
    if (h1 >=? $164) && (h1 <=? $345)
    then $0.56 + Math_abs ($0.2 * cosd (h1 + $168))
    else $0.36 + Math_abs ($0.4 * cosd (h1 + $35)) in
  let sl := if l1 <? $16 then $0.511 else ($0.040975 * l1) / ($1 + $0.01765 * l1) in
  let sc := (($0.0638 * c1) / ($1 + $0.0131 * c1)) + $0.638 in
  let sh := sc * (F * T + $1 - F) in
  let deltaA := a1 - a2 in
  let deltaB := b1 - b2 in
  let deltaC := c1 - c2 in
  let deltaH := Math_sqrt (deltaA * deltaA + deltaB * deltaB - deltaC * deltaC) in
  let firstTerm := (l1 - l2) / (l * sl) in
  let secondTerm := (c1 - c2) / (c * sc) in
  let thirdTerm := deltaH / sh in
  Some (V1984.mk l c c1 h1 c2 c1Pow4 F T sl sc sh deltaA deltaB deltaC deltaH
                 firstTerm secondTerm thirdTerm)
  end end.

Definition cmc1984_body (fuel : nat) (x y : Color num) (thresholdType : option string)
  : option num :=
  match cmc1984_vars fuel x y thresholdType with
  | None => None
  | Some v =>
      Some (Math_sqrt (V1984.firstTerm v * V1984.firstTerm v
                       + V1984.secondTerm v * V1984.secondTerm v
                       + V1984.thirdTerm v * V1984.thirdTerm v))
  end.

Definition cmc1984 (fuel : nat) (x y : list num) (thresholdType : option string)
  : Result (ColorError num) (option num) :=
  validateColorInputs false (fun x y => cmc1984_body fuel x y thresholdType) x y.
End Methods.
End DeltaE.


(** ** The exact reading: real numbers

    Every operation is the mathematical one.  Division and square root are
    Rocq's total functions; on validated colours no divisor of the four
    formulas is zero and no radicand is negative (lemmas [*_well_defined]
    below), so nothing is lost there.  [Math.atan2] is the angle
    of the point [(x, y)] in [(-PI, PI]], and [x % y] is the remainder of the
    truncated division. *)
Module Exact.
Local Open Scope R_scope.

Definition Rltb (x y : R) : bool := if Rlt_dec x y then true else false.
Definition Rleb (x y : R) : bool := if Rle_dec x y then true else false.
Definition Reqb (x y : R) : bool := if Req_dec_T x y then true else false.

(** The integer part towards zero. *)
Definition Rtrunc (x : R) : Z :=
  if Rle_dec 0 x then Int_part x else (- Int_part (- x))%Z.

Definition Rrem (x y : R) : R := x - y * IZR (Rtrunc (x / y)).

Definition Ratan2 (y x : R) : R :=
  if Rlt_dec 0 x then atan (y / x)
  else if Rlt_dec x 0 then
    if Rle_dec 0 y then atan (y / x) + PI else atan (y / x) - PI
  else if Rlt_dec 0 y then PI / 2
  else if Rlt_dec y 0 then - (PI / 2)
  else 0.

(** [Math.pow]: an integer power when the exponent is an integer. *)
Definition Rpow (x y : R) : R :=
  if Req_dec_T (IZR (Int_part y)) y then powerRZ x (Int_part y) else Rpower x y.

#[export] Instance R_JSNumber : JSNumber R := {|
  literal := Q2R;
  add := Rplus;
  sub := Rminus;
  mul := Rmult;
  div := Rdiv;
  rem := Rrem;
  neg := Ropp;
  lt := Rltb;
  le := Rleb;
  eq := Reqb;
  Math_sqrt := sqrt;
  Math_abs := Rabs;
  Math_PI := PI
|}.

#[export] Instance R_JSMath : JSMath R := {|
  Math_cos := cos;
  Math_sin := sin;
  Math_exp := exp;
  Math_atan2 := Ratan2;
  Math_pow := Rpow
|}.

(** The invariant of a validated colour: L in [0,100], a and b in
    [-128,127]. *)
Definition in_gamut (c : Color R) : Prop :=
  let '(l, a, b) := c in
  0 <= l <= 100 /\ -128 <= a <= 127 /\ -128 <= b <= 127.

(** A colour as the array a caller passes. *)
Definition array (c : Color R) : list R := let '(l, a, b) := c in [l; a; b].

(** The angle [x] degrees, in radians. *)
Definition deg (x : R) : R := x * PI / 180.
End Exact.

(** Unfolds the operations of [JSNumber] and [JSMath] at the real numbers. *)
Ltac exact_ops :=
  cbn [add sub mul div rem neg lt le eq Math_sqrt Math_abs Math_PI
       Math_cos Math_sin Math_exp Math_atan2 Math_pow literal
       Exact.R_JSNumber Exact.R_JSMath] in *;
  cbv beta iota delta [Q2R Qnum Qden] in *.

(** The same, with the literals [n * / 1] written [n]. *)
Ltac exact_num := exact_ops; rewrite ?Rinv_1, ?Rmult_1_r in *.

(** Sums, products and quotients of zeros. *)
Ltac zero_arith :=
  unfold Rdiv;
  repeat (rewrite ?Rminus_diag, ?Rmult_0_l, ?Rmult_0_r, ?Rplus_0_l, ?Rplus_0_r,
            ?Rminus_0_r, ?Ropp_0, ?sqrt_0).

(** ** The binary64 reading: IEEE 754 double precision

    [+ - * /] and [Math.sqrt] round to nearest, ties to even; comparisons and
    [===] are the IEEE ones (false on [NaN]); a literal is the double nearest
    to its decimal value; [%] is exact.  A [JSMath float] is a host's
    implementation of the transcendental functions. *)
Module Binary64.
Local Open Scope float_scope.

(** An integer of magnitude below [2^53], exactly. *)
Definition Z2F (z : Z) : float :=
  match z with
  | Z0 => 0
  | Zpos _ => of_uint63 (Uint63.of_Z z)
  | Zneg p => - of_uint63 (Uint63.of_Z (Zpos p))
  end.

(** The decimal literals of the source have numerators and denominators below
    [2^53], so the correctly rounded quotient is the nearest double. *)
Definition Fliteral (q : Q) : float := Z2F (Qnum q) / Z2F (Zpos (Qden q)).

(** [x % y] (C's [fmod]): the exact remainder, with the sign of [x]. *)
Definition Frem (x y : float) : float :=
  match Prim2SF x, Prim2SF y with
  | S754_nan, _ => nan
  | _, S754_nan => nan
  | S754_infinity _, _ => nan
  | _, S754_zero _ => nan
  | S754_zero _, _ => x
  | S754_finite _ _ _, S754_infinity _ => x
  | S754_finite sx mx ex, S754_finite _ my ey =>
      let e := Z.min ex ey in
      let X := (Z.pos mx * 2 ^ (ex - e))%Z in
      let Y := (Z.pos my * 2 ^ (ey - e))%Z in
      let r := (X mod Y)%Z in
      SF2Prim (binary_normalize prec emax (if sx then (- r)%Z else r) e sx)
  end.

#[export] Instance float_JSNumber : JSNumber float := {|
  literal := Fliteral;
  add := PrimFloat.add;
  sub := PrimFloat.sub;
  mul := PrimFloat.mul;
  div := PrimFloat.div;
  rem := Frem;
  neg := PrimFloat.opp;
  lt := PrimFloat.ltb;
  le := PrimFloat.leb;
  eq := PrimFloat.eqb;
  Math_sqrt := PrimFloat.sqrt;
  Math_abs := PrimFloat.abs;
  Math_PI := 3.141592653589793
|}.

(** A colour given by its literals. *)
Definition lab (l a b : Q) : list float := [Fliteral l; Fliteral a; Fliteral b].

(** *** A host to run the formulas on

    The functions of [Math] by their power series, in binary64.  The host
    stands for no particular engine.  It serves to run the embedding on the
    vectors of tests/test.js and to show that what is assumed of a host below
    can be had. *)

(** [acc + t1 + t2 + ...] where [t_(i+1) = t_i * factor / ((k + 2i - 1) (k + 2i))]:
    the series of sine ([factor = -x^2], [k = 2], from [t0 = x]) and of cosine
    ([k = 1], from [t0 = 1]). *)
Fixpoint trig_series (n : nat) (term acc factor k : float) : float :=
  match n with
  | O => acc
  | S n' =>
      let term' := term * factor / (k * (k + 1)) in
      trig_series n' term' (acc + term') factor (k + 2)
  end.

Definition series_sin (x : float) : float :=
  let x := Frem x (2 * 3.141592653589793) in
  trig_series 40 x x (- (x * x)) 2.

Definition series_cos (x : float) : float :=
  let x := Frem x (2 * 3.141592653589793) in
  trig_series 40 1 1 (- (x * x)) 1.

(** [acc + t1 + t2 + ...] where [t_(i+1) = t_i * x / (k + i)]. *)
Fixpoint exp_series (n : nat) (term acc x k : float) : float :=
  match n with
  | O => acc
  | S n' =>
      let term' := term * x / k in
      exp_series n' term' (acc + term') x (k + 1)
  end.

Fixpoint square_times (n : nat) (y : float) : float :=
  match n with
  | O => y
  | S n' => let z := square_times n' y in z * z
  end.

(** [exp x = (exp (x / 1024)) ^ 1024]. *)
Definition series_exp (x : float) : float :=
  square_times 10 (exp_series 60 1 1 (x / 1024) 1).

(** [x - x^3/3 + x^5/5 - ...]. *)
Fixpoint atan_series (n : nat) (power acc x2 k : float) : float :=
  match n with
  | O => acc
  | S n' =>
      let power' := - (power * x2) in
      atan_series n' power' (acc + power' / (k + 2)) x2 (k + 2)
  end.

(** [atan x = 2 atan (x / (1 + sqrt (1 + x^2)))], three times. *)
Definition series_atan (x : float) : float :=
  let half x := x / (1 + PrimFloat.sqrt (1 + x * x)) in
  let y := half (half (half x)) in
  8 * atan_series 60 y y (y * y) 1.

Definition series_atan2 (y x : float) : float :=
  if 0 <? x then series_atan (y / x)
  else if x <? 0 then
    if 0 <=? y then series_atan (y / x) + 3.141592653589793
    else series_atan (y / x) - 3.141592653589793
  else if 0 <? y then 1.5707963267948966
  else if y <? 0 then -1.5707963267948966
  else 0.

(** [x ^ y] for the small natural exponents [y] the source uses. *)
Fixpoint repeated_product (n : nat) (x y : float) : float :=
  match n with
  | O => 1
  | S n' => if 0 <? y then x * repeated_product n' x (y - 1) else 1
  end.

Definition series_host : JSMath float := {|
  Math_cos := series_cos;
  Math_sin := series_sin;
  Math_exp := series_exp;
  Math_atan2 := series_atan2;
  Math_pow := repeated_product 64
|}.
End Binary64.


(** ** The specification's wording, for comparison with the code *)

Module Spec.
Section Wording.
Context {num : Type} {N : JSNumber num} {M : JSMath num}.
Local Open Scope js_scope.

Definition channel (c : Color num) (ch : Channel) : num :=
  let '(l, a, b) := c in
  match ch with
  | l_star => l
  | a_star => a
  | b_star => b
  end.

(** "L in [0,100], a in [-128,127], b in [-128,127]". *)
Definition within_bounds (ch : Channel) (v : num) : bool :=
  ($(fst (Channel_range ch)) <=? v) && (v <=? $(snd (Channel_range ch))).

Definition out_of_range_channels (c : Color num) : list Channel :=
  filter (fun ch => negb (within_bounds ch (channel c ch))) [l_star; a_star; b_star].

(** "keep only the first 3 elements". *)
Definition first3 (x : list num) : Color num :=
  (nth 0 x $0, nth 1 x $0, nth 2 x $0).

(** "If input length is not 3: when discardExcessChannels is true and length
    > 3, keep only the first 3 elements; otherwise fail with a
    ChannelCountError.  Run range validation on the resulting 3-channel
    color; if any channel fails, fail with a CoordinateRangeError.  Otherwise
    return the validated color unchanged." *)
Definition checkColor (input : list num) (discardExcessChannels : bool)
  : Result (ColorError num) (Color num) :=
  if (length input =? 3)%nat || (discardExcessChannels && (3 <? length input)%nat)
  then
    let color := first3 input in
    match out_of_range_channels color with
    | [] => Ok color
    | _ :: _ =>
        Throw (CoordinateRangeError color
                 (map (fun ch => within_bounds ch (channel color ch))
                      [l_star; a_star; b_star]))
    end
  else Throw (ChannelCountError input 3).

Definition chroma (c : Color num) : num :=
  let '(_, a, b) := c in Math_sqrt (a * a + b * b).

Definition sq (x : num) : num := x * x.

(** "graphicArts: k1=0.045, k2=0.015, kl=1; textiles: k1=0.048, k2=0.014,
    kl=2 (unrecognized type behaves as graphicArts)", as [(k1, k2, kl)]. *)
Definition cie1994_weights (applicationType : option string) : Q * Q * Q :=
  match applicationType with
  | Some s => if string_dec s "textiles" then (0.048, 0.014, 2) else (0.045, 0.015, 1)
  | None => (0.045, 0.015, 1)
  end%Q.

(** "sl=1, sc=1+k1 c1, sh=1+k2 c2; result = sqrt((dL/(kl sl))^2 +
    (dC/(kc sc))^2 + (dH/(kh sh))^2) with kc=kh=1", [c1] and [c2] the chromas
    of the reference and of the sample. *)
Definition cie1994 (ref sample : Color num) (applicationType : option string) : num :=
  let '(k1, k2, kl) := cie1994_weights applicationType in
  let c1 := chroma ref in
  let c2 := chroma sample in
  let dL := channel ref l_star - channel sample l_star in
  let dA := channel ref a_star - channel sample a_star in
  let dB := channel ref b_star - channel sample b_star in
  let dC := c1 - c2 in
  let dH := Math_sqrt (sq dA + sq dB - sq dC) in
  let sl := $1 in
  let sc := $1 + $k1 * c1 in
  let sh := $1 + $k2 * c2 in
  Math_sqrt (sq (dL / ($kl * sl)) + sq (dC / ($1 * sc)) + sq (dH / ($1 * sh))).

(** "getKlValue: 1 for graphicArts/unrecognized, 2 for textiles". *)
Definition getKlValue (applicationType : string) : Q :=
  if string_dec applicationType "textiles" then 2%Q else 1%Q.





(** "acceptability: l=2, c=1; imperceptibility (and any unrecognized value):
    l=1, c=1", with 'acceptability' the default, as [(l, c)]. *)
Definition cmc1984_weights (thresholdType : option string) : Q * Q :=
  match thresholdType with
  | Some s => if string_dec s "acceptability" then (2, 1) else (1, 1)
  | None => (2, 1)
  end%Q.
End Wording.
End Spec.

(** ** The local variables of [ciede2000], as equations

    [ciede2000_vars] computes its record by one chain of [let]s.  The
    equations below say the same of a record [v], one per [const] or [let] of
    the source and each in terms of the variables before it; the three
    variables assigned in the branches of lines 285-311 get one equation
    each. *)
Section Equations2000.
Context {num : Type} {N : JSNumber num} {M : JSMath num}.
Local Open Scope js_scope.
Import V2000.

Record ciede2000_eqs (x y : Color num) (v : V2000.t num) : Prop := {
  eq_deltaLPrime : deltaLPrime v = Spec.channel y l_star - Spec.channel x l_star;
  eq_lBar : lBar v = (Spec.channel x l_star + Spec.channel y l_star) / $2;
  eq_cBar : cBar v = (c1 v + c2 v) / $2;
  eq_cBarPow7 : cBarPow7 v = Math_pow (cBar v) $7;
  eq_cCoeff : cCoeff v = Math_sqrt (cBarPow7 v / (cBarPow7 v + Math_pow $25 $7));
  eq_a1Prime : a1Prime v =
    Spec.channel x a_star + (Spec.channel x a_star / $2) * ($1 - cCoeff v);
  eq_a2Prime : a2Prime v =
    Spec.channel y a_star + (Spec.channel y a_star / $2) * ($1 - cCoeff v);
  eq_c1Prime : c1Prime v =
    Math_sqrt (a1Prime v * a1Prime v + Spec.channel x b_star * Spec.channel x b_star);
  eq_c2Prime : c2Prime v =
    Math_sqrt (a2Prime v * a2Prime v + Spec.channel y b_star * Spec.channel y b_star);
  eq_cBarPrime : cBarPrime v = (c1Prime v + c2Prime v) / $2;
  eq_deltaCPrime : deltaCPrime v = c2Prime v - c1Prime v;
  eq_h1Prime : h1Prime v =
    if (a1Prime v === $0) && (Spec.channel x b_star === $0) then $0
    else atan2d (Spec.channel x b_star) (a1Prime v) mod $360;
  eq_h2Prime : h2Prime v =
    if (a2Prime v === $0) && (Spec.channel y b_star === $0) then $0
    else atan2d (Spec.channel y b_star) (a2Prime v) mod $360;
  eq_deltaSmallHPrime : deltaSmallHPrime v =
    if (c1Prime v === $0) || (c2Prime v === $0) then $0
    else if Math_abs (h1Prime v - h2Prime v) <=? $180 then h2Prime v - h1Prime v
    else if h2Prime v <=? h1Prime v then h2Prime v - h1Prime v + $360
    else h2Prime v - h1Prime v - $360;
  eq_deltaBigHPrime : deltaBigHPrime v =
    if (c1Prime v === $0) || (c2Prime v === $0) then $0
    else $2 * Math_sqrt (c1Prime v * c2Prime v) * sind (deltaSmallHPrime v / $2);
  eq_hBarPrime : hBarPrime v =
    if (c1Prime v === $0) || (c2Prime v === $0) then h1Prime v + h2Prime v
    else if Math_abs (h1Prime v - h2Prime v) <=? $180 then (h1Prime v + h2Prime v) / $2
    else if (h1Prime v + h2Prime v) <? $360 then (h1Prime v + h2Prime v + $360) / $2
    else (h1Prime v + h2Prime v - $360) / $2;
  eq_T : T v = $1 - $0.17 * cosd (hBarPrime v - $30)
                  + $0.24 * cosd ($2 * hBarPrime v)
                  + $0.32 * cosd ($3 * hBarPrime v + $6)
                  - $0.2 * cosd ($4 * hBarPrime v - $63);
  eq_slCoeff : slCoeff v = (lBar v - $50) * (lBar v - $50);
  eq_sl : sl v = $1 + ($0.015 * slCoeff v) / Math_sqrt ($20 + slCoeff v);
  eq_sc : sc v = $1 + $0.045 * cBarPrime v;
  eq_sh : sh v = $1 + $0.015 * cBarPrime v * T v;
  eq_RtCoeff : RtCoeff v =
    $60 * Math_exp (- ((hBarPrime v - $275) / $25) * ((hBarPrime v - $275) / $25));
  eq_Rt : Rt v = - $2 * cCoeff v * sind (RtCoeff v);
  eq_kl : kl v = $1;
  eq_kc : kc v = $1;
  eq_kh : kh v = $1;
  eq_firstTerm : firstTerm v = deltaLPrime v / (kl v * sl v);
  eq_secondTerm : secondTerm v = deltaCPrime v / (kc v * sc v);
  eq_thirdTerm : thirdTerm v = deltaBigHPrime v / (kh v * sh v);
  eq_fourthTerm : fourthTerm v = Rt v * secondTerm v * thirdTerm v
}.
End Equations2000.

(** ** The local variables of [cmc1984], as equations *)
Section Equations1984.
Context {num : Type} {N : JSNumber num} {M : JSMath num}.
Local Open Scope js_scope.
Import V1984.

Record cmc1984_eqs (fuel : nat) (x y : Color num) (thresholdType : option string)
    (v : V1984.t num) : Prop := {
  eq84_lc : (l v, c v) =
    let thresholdType :=
      match thresholdType with Some s => s | None => "acceptability"%string end in
    if (thresholdType =? "acceptability")%string then ($2, $1)
    else if (thresholdType =? "imperceptibility")%string then ($1, $1)
    else ($1, $1);
  eq84_lch1 : labToLch fuel x = Some (Spec.channel x l_star, c1 v, h1 v);
  eq84_lch2 : exists __2, labToLch fuel y = Some (Spec.channel y l_star, c2 v, __2);
  eq84_c1Pow4 : c1Pow4 v = c1 v * c1 v * c1 v * c1 v;
  eq84_F : F v = Math_sqrt (c1Pow4 v / (c1Pow4 v + $1900));
  eq84_T : T v =
    if (h1 v >=? $164) && (h1 v <=? $345)
    then $0.56 + Math_abs ($0.2 * cosd (h1 v + $168))
    else $0.36 + Math_abs ($0.4 * cosd (h1 v + $35));
  eq84_sl : sl v =
    if Spec.channel x l_star <? $16 then $0.511
    else ($0.040975 * Spec.channel x l_star) / ($1 + $0.01765 * Spec.channel x l_star);
  eq84_sc : sc v = (($0.0638 * c1 v) / ($1 + $0.0131 * c1 v)) + $0.638;
  eq84_sh : sh v = sc v * (F v * T v + $1 - F v);
  eq84_deltaA : deltaA v = Spec.channel x a_star - Spec.channel y a_star;
  eq84_deltaB : deltaB v = Spec.channel x b_star - Spec.channel y b_star;
  eq84_deltaC : deltaC v = c1 v - c2 v;
  eq84_deltaH : deltaH v =
    Math_sqrt (deltaA v * deltaA v + deltaB v * deltaB v - deltaC v * deltaC v);
  eq84_firstTerm : firstTerm v =
    (Spec.channel x l_star - Spec.channel y l_star) / (l v * sl v);
  eq84_secondTerm : secondTerm v = (c1 v - c2 v) / (c v * sc v);
  eq84_thirdTerm : thirdTerm v = deltaH v / sh v
}.
End Equations1984.

(** * Validation *)

Section ValidationFacts.
Context {num : Type} {N : JSNumber num}.
Local Open Scope js_scope.

Lemma _isValidLabColor_bounds (c : Color num) :
  _isValidLabColor c =
  map (fun ch => Spec.within_bounds ch (Spec.channel c ch)) [l_star; a_star; b_star].
Proof. destruct c as [[l a] b]. reflexivity. Qed.

Lemma _checkColor_range_spec (c : Color num) :
  _checkColor_range c =
  match Spec.out_of_range_channels c with
  | [] => Ok c
  | _ :: _ =>
      Throw (CoordinateRangeError c
               (map (fun ch => Spec.within_bounds ch (Spec.channel c ch))
                    [l_star; a_star; b_star]))
  end.
Proof.
  unfold _checkColor_range, Spec.out_of_range_channels.
  rewrite _isValidLabColor_bounds. cbn [map forallb filter].
  destruct (Spec.within_bounds l_star _), (Spec.within_bounds a_star _),
    (Spec.within_bounds b_star _); reflexivity.
Qed.

Lemma _checkColor_refines (x : list num) (discard : bool) :
  _checkColor x discard = Spec.checkColor x discard.
Proof.
  unfold Spec.checkColor.
  destruct x as [|l [|a [|b [|d rest]]]]; destruct discard;
    cbn [_checkColor length Nat.eqb Nat.ltb Nat.leb orb andb];
    try reflexivity; apply _checkColor_range_spec.
Qed.

(** The error lists exactly the channels that are out of range, each with
    its value. *)
Lemma CoordinateRangeError_err_spec (c : Color num) :
  CoordinateRangeError_err c (_isValidLabColor c) =
  map (fun ch => (ch, Spec.channel c ch)) (Spec.out_of_range_channels c).
Proof.
  rewrite _isValidLabColor_bounds. unfold Spec.out_of_range_channels.
  destruct c as [[l a] b]. cbn [map nth CoordinateRangeError_err filter].
  destruct (Spec.within_bounds l_star _), (Spec.within_bounds a_star _),
    (Spec.within_bounds b_star _); reflexivity.
Qed.

Lemma _checkColor_count (x : list num) (discard : bool) :
  length x <> 3%nat -> discard = false \/ (length x < 3)%nat ->
  _checkColor x discard = Throw (ChannelCountError x 3).
Proof.
  intros Hn Hd. rewrite _checkColor_refines. unfold Spec.checkColor.
  apply Nat.eqb_neq in Hn. rewrite Hn. cbn [orb].
  destruct Hd as [-> | Hlt]; [reflexivity|].
  replace (3 <? length x)%nat with false
    by (symmetry; apply Nat.ltb_ge; lia).
  now rewrite andb_false_r.
Qed.

Lemma _checkColor_Ok_length (x : list num) (c : Color num) :
  _checkColor x false = Ok c -> length x = 3%nat.
Proof.
  destruct (Nat.eq_dec (length x) 3) as [E | Hne]; [easy|].
  rewrite (_checkColor_count x false Hne (or_introl eq_refl)). discriminate.
Qed.

Lemma validateColorInputs_first {A} (f : Color num -> Color num -> A) (x y : list num) :
  length x <> 3%nat ->
  validateColorInputs false f x y = Throw (ChannelCountError x 3).
Proof.
  intros Hn. unfold validateColorInputs.
  now rewrite (_checkColor_count x false Hn (or_introl eq_refl)).
Qed.

Lemma validateColorInputs_second {A} (f : Color num -> Color num -> A) (x y : list num) cx :
  _checkColor x false = Ok cx -> length y <> 3%nat ->
  validateColorInputs false f x y = Throw (ChannelCountError y 3).
Proof.
  intros Hx Hn. unfold validateColorInputs. rewrite Hx.
  now rewrite (_checkColor_count y false Hn (or_introl eq_refl)).
Qed.

Lemma validateColorInputs_Ok {A} (f : Color num -> Color num -> A) (x y : list num) cx cy :
  _checkColor x false = Ok cx -> _checkColor y false = Ok cy ->
  validateColorInputs false f x y = Ok (f cx cy).
Proof. intros Hx Hy. unfold validateColorInputs. now rewrite Hx, Hy. Qed.

Lemma validateColorInputs_Ok_inv {A} (f : Color num -> Color num -> A) (x y : list num) v :
  validateColorInputs false f x y = Ok v ->
  exists cx cy, _checkColor x false = Ok cx /\ _checkColor y false = Ok cy /\ v = f cx cy.
Proof.
  unfold validateColorInputs.
  destruct (_checkColor x false) as [cx|]; [|discriminate].
  destruct (_checkColor y false) as [cy|]; [|discriminate].
  intros [= <-]. now exists cx, cy.
Qed.
End ValidationFacts.


(** * Loops and the local variables, for every reading of the numbers *)

Section GenericFacts.
Context {num : Type} {N : JSNumber num} {M : JSMath num}.
Local Open Scope js_scope.

Lemma while_done (fuel : nat) cond body (s : num) :
  cond s = false -> while fuel cond body s = Some s.
Proof. intros E. destruct fuel; cbn; now rewrite E. Qed.

Lemma while_step (fuel : nat) cond body (s : num) :
  cond s = true -> while (S fuel) cond body s = while fuel cond body (body s).
Proof. intros E. cbn. now rewrite E. Qed.

(** [labToLch] passes [L] through and computes the chroma before its loops. *)
Lemma labToLch_Some (fuel : nat) (L a b : num) (r : Color num) :
  labToLch fuel (L, a, b) = Some r ->
  exists Hh, r = (L, Math_sqrt (a * a + b * b), Hh).
Proof.
  unfold labToLch.
  destruct (while fuel _ _ _) as [H1|]; [|discriminate].
  destruct (while fuel _ _ H1) as [H2|]; [|discriminate].
  intros [= <-]. now exists H2.
Qed.

Lemma ciede2000_vars_eqs (fuel : nat) (x y : Color num) (v : V2000.t num) :
  DeltaE.ciede2000_vars fuel x y = Some v ->
  ciede2000_eqs x y v /\
  (exists H1, labToLch fuel x = Some (Spec.channel x l_star, V2000.c1 v, H1)) /\
  (exists H2, labToLch fuel y = Some (Spec.channel y l_star, V2000.c2 v, H2)).
Proof.
  destruct x as [[l1 a1] b1], y as [[l2 a2] b2]. unfold DeltaE.ciede2000_vars.
  destruct (labToLch fuel (l1, a1, b1)) as [[[L1 c1] H1]|] eqn:E1; [|discriminate].
  destruct (labToLch fuel (l2, a2, b2)) as [[[L2 c2] H2]|] eqn:E2; [|discriminate].
  destruct (labToLch_Some _ _ _ _ _ E1) as [H1' [= -> _ _]].
  destruct (labToLch_Some _ _ _ _ _ E2) as [H2' [= -> _ _]].
  cbv zeta.
  match goal with
  | |- context [if ?c then (_, _, _) else _] => destruct c eqn:Ec
  end; intros [= <-];
    (split; [constructor; cbn; rewrite ?Ec; reflexivity
            | split; eexists; reflexivity]).
Qed.

Lemma cmc1984_vars_eqs (fuel : nat) (x y : Color num) (t : option string)
    (v : V1984.t num) :
  DeltaE.cmc1984_vars fuel x y t = Some v -> cmc1984_eqs fuel x y t v.
Proof.
  destruct x as [[l1 a1] b1], y as [[l2 a2] b2]. unfold DeltaE.cmc1984_vars.
  cbv zeta.
  destruct (labToLch fuel (l1, a1, b1)) as [[[L1 c1] H1]|] eqn:E1;
    [|destruct (if (_ =? _)%string then _ else _); discriminate].
  destruct (labToLch fuel (l2, a2, b2)) as [[[L2 c2] H2]|] eqn:E2;
    [|destruct (if (_ =? _)%string then _ else _); discriminate].
  destruct (labToLch_Some _ _ _ _ _ E1) as [H1' [= -> Ec1 _]].
  destruct (labToLch_Some _ _ _ _ _ E2) as [H2' [= -> Ec2 _]].
  destruct (_ =? "acceptability")%string eqn:Ea;
    [|destruct (_ =? "imperceptibility")%string eqn:Ei];
    intros [= <-]; constructor;
    cbn [V1984.l V1984.c V1984.c1 V1984.h1 V1984.c2 V1984.c1Pow4 V1984.F
         V1984.T V1984.sl V1984.sc V1984.sh V1984.deltaA V1984.deltaB
         V1984.deltaC V1984.deltaH V1984.firstTerm V1984.secondTerm
         V1984.thirdTerm Spec.channel];
    rewrite ?Ea, ?Ei; try reflexivity; try exact E1; eexists; exact E2.
Qed.
End GenericFacts.


(** * The exact reading *)

Module ExactFacts.
Import Exact.
Local Open Scope R_scope.

Lemma Rleb_true (x y : R) : Rleb x y = true <-> x <= y.
Proof. unfold Rleb. destruct (Rle_dec x y); split; intros; try easy; discriminate. Qed.

Lemma Rleb_false (x y : R) : Rleb x y = false <-> y < x.
Proof. unfold Rleb. destruct (Rle_dec x y); split; intros; try easy; try lra; discriminate. Qed.

Lemma Rltb_true (x y : R) : Rltb x y = true <-> x < y.
Proof. unfold Rltb. destruct (Rlt_dec x y); split; intros; try easy; discriminate. Qed.

Lemma Rltb_false (x y : R) : Rltb x y = false <-> y <= x.
Proof. unfold Rltb. destruct (Rlt_dec x y); split; intros; try easy; try lra; discriminate. Qed.

Lemma Reqb_true (x y : R) : Reqb x y = true <-> x = y.
Proof. unfold Reqb. destruct (Req_dec_T x y); split; intros; try easy; discriminate. Qed.

Lemma Reqb_false (x y : R) : Reqb x y = false <-> x <> y.
Proof. unfold Reqb. destruct (Req_dec_T x y); split; intros; try easy; discriminate. Qed.

Lemma Q2R_Z (z : Z) : Q2R (z # 1)%Q = IZR z.
Proof. unfold Q2R. cbn. lra. Qed.

Lemma Ratan2_range (y x : R) : - PI < Ratan2 y x <= PI.
Proof.
  pose proof PI_RGT_0 as Hpi. pose proof (atan_bound (y / x)) as Hb.
  unfold Ratan2.
  destruct (Rlt_dec 0 x) as [Hx | Hx]; [lra|].
  destruct (Rlt_dec x 0) as [Hx' | Hx'].
  - destruct (Rle_dec 0 y) as [Hy | Hy].
    + assert (y / x <= 0).
      { unfold Rdiv. assert (/ x < 0) by now apply Rinv_lt_0_compat. nra. }
      assert (atan (y / x) <= 0).
      { destruct (Req_dec (y / x) 0) as [-> | Hne]; [rewrite atan_0; lra|].
        rewrite <- atan_0. left. apply atan_increasing. lra. }
      lra.
    + assert (0 < y / x).
      { unfold Rdiv. assert (/ x < 0) by now apply Rinv_lt_0_compat. nra. }
      assert (0 < atan (y / x)).
      { rewrite <- atan_0. now apply atan_increasing. }
      lra.
  - destruct (Rlt_dec 0 y); [lra|]. destruct (Rlt_dec y 0); lra.
Qed.

Lemma atan2d_exact (y x : R) : atan2d y x = Ratan2 y x * 180 / PI.
Proof. unfold atan2d, _radToDeg. cbn. rewrite Q2R_Z. reflexivity. Qed.

Lemma atan2d_range (y x : R) : -180 < atan2d y x <= 180.
Proof.
  rewrite atan2d_exact. pose proof PI_RGT_0 as Hpi.
  pose proof (Ratan2_range y x) as [Hl Hu].
  split.
  - apply Rmult_lt_reg_r with PI; [lra|]. field_simplify; lra.
  - apply Rmult_le_reg_r with PI; [lra|]. field_simplify; lra.
Qed.

Lemma Rtrunc_small (r : R) : -1 < r < 1 -> Rtrunc r = 0%Z.
Proof.
  intros Hr. unfold Rtrunc. destruct (Rle_dec 0 r).
  - symmetry. apply Int_part_spec. simpl. lra.
  - replace (Int_part (- r)) with 0%Z; [reflexivity|].
    apply Int_part_spec. simpl. lra.
Qed.

Lemma Rrem_small (x y : R) : 0 < y -> - y < x < y -> Rrem x y = x.
Proof.
  intros Hy Hx. unfold Rrem. rewrite Rtrunc_small; [simpl; lra|].
  split.
  - apply Rmult_lt_reg_r with y; [lra|]. unfold Rdiv. rewrite Rmult_assoc, Rinv_l; lra.
  - apply Rmult_lt_reg_r with y; [lra|]. unfold Rdiv. rewrite Rmult_assoc, Rinv_l; lra.
Qed.

Lemma labToLch_exact (fuel : nat) (L a b : R) :
  (1 <= fuel)%nat ->
  exists Hh : R,
    labToLch fuel (L, a, b) = Some (L, sqrt (a * a + b * b), Hh) /\
    0 <= Hh < 360 /\
    (sqrt (a * a + b * b) <= 0 -> Hh = 0) /\
    (0 < sqrt (a * a + b * b) ->
     Hh = atan2d b a \/ Hh = atan2d b a + 360).
Proof.
  intros Hfuel. unfold labToLch.
  pose proof (atan2d_range b a) as Hr.
  set (C := Math_sqrt (a * a + b * b)%js).
  set (H0 := if (C <=? $0)%js then ($0)%js else atan2d b a).
  assert (HC : C = sqrt (a * a + b * b)) by reflexivity.
  assert (HH0 : -180 < H0 <= 180 /\ (C <= 0 -> H0 = 0) /\ (0 < C -> H0 = atan2d b a)).
  { subst H0. exact_ops. destruct (Rleb C _) eqn:E.
    - apply Rleb_true in E. lra.
    - apply Rleb_false in E. lra. }
  clearbody H0 C. subst C. destruct HH0 as (HrH & Hz & Hnz).
  rewrite while_done by (exact_ops; apply Rleb_false; lra).
  destruct (Rlt_dec H0 0) as [Hneg | Hpos].
  - destruct fuel as [|fuel]; [lia|].
    rewrite while_step by (exact_ops; apply Rltb_true; lra).
    rewrite while_done by (exact_ops; apply Rltb_false; lra).
    exists (H0 + 360). exact_ops.
    split; [do 3 f_equal; lra|]. split; [lra|]. split; [lra|].
    intros Hc. right. rewrite <- (Hnz Hc). reflexivity.
  - rewrite while_done by (exact_ops; apply Rltb_false; lra).
    exists H0. split; [reflexivity|]. split; [lra|]. split; [assumption|].
    intros Hc. left. now apply Hnz.
Qed.

Lemma labToLch_chroma (fuel : nat) (L a b : R) (r : Color R) :
  labToLch fuel (L, a, b) = Some r -> snd (fst r) = sqrt (a * a + b * b).
Proof. intros E. destruct (labToLch_Some _ _ _ _ _ E) as [Hh ->]. reflexivity. Qed.

(** With one unit of fuel, [ciede2000_vars] returns its record. *)
Lemma ciede2000_vars_exact (fuel : nat) (x y : Color R) :
  (1 <= fuel)%nat ->
  exists v, DeltaE.ciede2000_vars fuel x y = Some v /\ ciede2000_eqs x y v /\
            V2000.c1 v = Spec.chroma x /\ V2000.c2 v = Spec.chroma y.
Proof.
  intros Hfuel. destruct x as [[l1 a1] b1], y as [[l2 a2] b2].
  destruct (labToLch_exact fuel l1 a1 b1 Hfuel) as (H1 & E1 & _).
  destruct (labToLch_exact fuel l2 a2 b2 Hfuel) as (H2 & E2 & _).
  assert (exists v, DeltaE.ciede2000_vars fuel (l1, a1, b1) (l2, a2, b2) = Some v)
    as [v Ev].
  { unfold DeltaE.ciede2000_vars. rewrite E1, E2. cbv zeta.
    match goal with
    | |- context [if ?c then (_, _, _) else _] => destruct c
    end; eexists; reflexivity. }
  exists v. split; [exact Ev|].
  destruct (ciede2000_vars_eqs _ _ _ _ Ev) as (Heqs & [H1' E1'] & [H2' E2']).
  split; [exact Heqs|].
  rewrite E1 in E1'. rewrite E2 in E2'.
  injection E1' as Ec1 _. injection E2' as Ec2 _.
  split; symmetry; assumption.
Qed.

Lemma in_gamut_checkColor (c : Color R) (discard : bool) :
  in_gamut c -> _checkColor (array c) discard = Ok c.
Proof.
  destruct c as [[l a] b]. intros (Hl & Ha & Hb).
  cbn [array _checkColor]. unfold _checkColor_range, _isValidLabColor. exact_ops.
  rewrite !(proj2 (Rleb_true _ _)) by lra. reflexivity.
Qed.

Lemma checkColor_in_gamut (x : list R) (c : Color R) :
  _checkColor x false = Ok c -> x = array c /\ in_gamut c.
Proof.
  intros E. pose proof (_checkColor_Ok_length _ _ E) as Hlen.
  destruct x as [|l [|a [|b [|d rest]]]]; try discriminate. clear Hlen.
  cbn [_checkColor] in E. unfold _checkColor_range, _isValidLabColor in E.
  exact_ops. cbn [forallb] in E.
  destruct (Rleb _ l) eqn:E1, (Rleb l _) eqn:E2, (Rleb _ a) eqn:E3,
    (Rleb a _) eqn:E4, (Rleb _ b) eqn:E5, (Rleb b _) eqn:E6;
    cbn in E; try discriminate.
  injection E as <-. split; [reflexivity|].
  apply Rleb_true in E1, E2, E3, E4, E5, E6. cbn. lra.
Qed.

(** The hue of [ciede2000]: [0], or the angle [atan2d b a'] itself, which
    [% 360] leaves as it is: a value in [(-180, 180]]. *)
Lemma hPrime_exact (aP b h : R) :
  h = (if ((aP === $0) && (b === $0))%js then ($0)%js
       else (atan2d b aP mod $360)%js) ->
  -180 < h <= 180 /\
  (aP = 0 /\ b = 0 -> h = 0) /\
  (~ (aP = 0 /\ b = 0) -> h = atan2d b aP).
Proof.
  intros ->. pose proof (atan2d_range b aP) as Hr. exact_ops.
  replace (0 * / 1) with 0 by lra.
  assert (Hrem : Rrem (atan2d b aP) (360 * / 1) = atan2d b aP)
    by (apply Rrem_small; lra).
  destruct (Reqb aP 0) eqn:Ea; [apply (proj1 (Reqb_true _ _)) in Ea
                               | apply (proj1 (Reqb_false _ _)) in Ea];
    (destruct (Reqb b 0) eqn:Eb; [apply (proj1 (Reqb_true _ _)) in Eb
                                 | apply (proj1 (Reqb_false _ _)) in Eb]);
    cbn [andb]; rewrite ?Hrem;
    (split; [lra | split; [intros [? ?] | intros ?]]);
    solve [reflexivity | contradiction | exfalso; auto].
Qed.

Lemma ciede2000_hues_exact (x y : Color R) (v : V2000.t R) :
  ciede2000_eqs x y v ->
  -180 < V2000.h1Prime v <= 180 /\ -180 < V2000.h2Prime v <= 180.
Proof.
  intros Heqs. split.
  - exact (proj1 (hPrime_exact _ _ _ (eq_h1Prime _ _ _ Heqs))).
  - exact (proj1 (hPrime_exact _ _ _ (eq_h2Prime _ _ _ Heqs))).
Qed.




Lemma sind_opp (x : R) : sind (- x) = - sind x.
Proof.
  unfold sind, _degToRad. exact_ops.
  replace (- x * PI / (180 * / 1)) with (- (x * PI / (180 * / 1))) by (unfold Rdiv; ring).
  apply sin_neg.
Qed.

Lemma sind_half_opp (d : R) : sind (- d / $2)%js = - sind (d / $2)%js.
Proof.
  rewrite <- sind_opp. f_equal. exact_ops. unfold Rdiv. ring.
Qed.

Lemma sind_0 : sind 0 = 0.
Proof.
  unfold sind, _degToRad. exact_ops.
  replace (0 * PI / (180 * / 1)) with 0 by (unfold Rdiv; ring). apply sin_0.
Qed.

(** Swapping the two colours: what changes sign and what stays. *)
Lemma ciede2000_swap (x y : Color R) (v w : V2000.t R) :
  ciede2000_eqs x y v -> ciede2000_eqs y x w ->
  V2000.c1 w = V2000.c2 v -> V2000.c2 w = V2000.c1 v ->
  (V2000.deltaLPrime w = - V2000.deltaLPrime v /\
   V2000.deltaCPrime w = - V2000.deltaCPrime v /\
   V2000.deltaSmallHPrime w = - V2000.deltaSmallHPrime v /\
   V2000.deltaBigHPrime w = - V2000.deltaBigHPrime v) /\
  (V2000.hBarPrime w = V2000.hBarPrime v /\
   V2000.T w = V2000.T v /\
   V2000.sl w = V2000.sl v /\ V2000.sc w = V2000.sc v /\ V2000.sh w = V2000.sh v /\
   V2000.Rt w = V2000.Rt v) /\
  (V2000.firstTerm w = - V2000.firstTerm v /\
   V2000.secondTerm w = - V2000.secondTerm v /\
   V2000.thirdTerm w = - V2000.thirdTerm v /\
   V2000.fourthTerm w = V2000.fourthTerm v).
Proof.
  intros Hv Hw Hc1 Hc2.
  pose proof (ciede2000_hues_exact _ _ _ Hv) as [Hh1 Hh2].
  destruct Hv as [vdL vlBar vcBar vP7 vcC va1 va2 vc1 vc2 vcB vdC vh1 vh2
                  vdh vdH vhB vT vslC vsl vsc vsh vRtC vRt vkl vkc vkh
                  vt1 vt2 vt3 vt4].
  destruct Hw as [wdL wlBar wcBar wP7 wcC wa1 wa2 wc1 wc2 wcB wdC wh1 wh2
                  wdh wdH whB wT wslC wsl wsc wsh wRtC wRt wkl wkc wkh
                  wt1 wt2 wt3 wt4].
  assert (EcBar : V2000.cBar w = V2000.cBar v).
  { rewrite wcBar, vcBar, Hc1, Hc2. exact_ops. f_equal. apply Rplus_comm. }
  assert (EP7 : V2000.cBarPow7 w = V2000.cBarPow7 v) by congruence.
  assert (EcC : V2000.cCoeff w = V2000.cCoeff v) by congruence.
  assert (Ea1 : V2000.a1Prime w = V2000.a2Prime v) by congruence.
  assert (Ea2 : V2000.a2Prime w = V2000.a1Prime v) by congruence.
  assert (Ec1 : V2000.c1Prime w = V2000.c2Prime v) by congruence.
  assert (Ec2 : V2000.c2Prime w = V2000.c1Prime v) by congruence.
  assert (EcB : V2000.cBarPrime w = V2000.cBarPrime v).
  { rewrite wcB, vcB, Ec1, Ec2. exact_ops. f_equal. apply Rplus_comm. }
  assert (EdC : V2000.deltaCPrime w = - V2000.deltaCPrime v).
  { rewrite wdC, vdC, Ec1, Ec2. exact_ops. lra. }
  assert (Eh1 : V2000.h1Prime w = V2000.h2Prime v)
    by (rewrite wh1, vh2, Ea1; reflexivity).
  assert (Eh2 : V2000.h2Prime w = V2000.h1Prime v)
    by (rewrite wh2, vh1, Ea2; reflexivity).
  assert (EdL : V2000.deltaLPrime w = - V2000.deltaLPrime v).
  { rewrite wdL, vdL. exact_ops. lra. }
  assert (ElBar : V2000.lBar w = V2000.lBar v).
  { rewrite wlBar, vlBar. exact_ops. f_equal. apply Rplus_comm. }
  rewrite Ec1, Ec2, Eh1, Eh2 in wdh, whB. rewrite Ec1, Ec2 in wdH.
  set (c1p := V2000.c1Prime v) in *. set (c2p := V2000.c2Prime v) in *.
  set (h1 := V2000.h1Prime v) in *. set (h2 := V2000.h2Prime v) in *.
  assert (Econd : ((c2p === $0) || (c1p === $0))%js = ((c1p === $0) || (c2p === $0))%js)
    by apply orb_comm.
  rewrite Econd in wdh, wdH, whB.
  assert (Edh : V2000.deltaSmallHPrime w = - V2000.deltaSmallHPrime v).
  { rewrite wdh, vdh. destruct ((c1p === $0) || (c2p === $0))%js.
    - exact_ops. lra.
    - exact_ops. rewrite (Rabs_minus_sym h2 h1).
      destruct (Rleb (Rabs (h1 - h2)) _) eqn:E; [lra|].
      apply Rleb_false in E.
      destruct (Rleb h1 h2) eqn:E1, (Rleb h2 h1) eqn:E2;
        try apply Rleb_true in E1; try apply Rleb_true in E2;
        try apply (proj1 (Rleb_false _ _)) in E1;
        try apply (proj1 (Rleb_false _ _)) in E2; try lra.
      rewrite Rabs_right in E by lra. lra. }
  assert (EdH : V2000.deltaBigHPrime w = - V2000.deltaBigHPrime v).
  { rewrite wdH, vdH, Edh. destruct ((c1p === $0) || (c2p === $0))%js.
    - exact_ops. lra.
    - rewrite sind_half_opp. cbn [mul Math_sqrt R_JSNumber].
      rewrite (Rmult_comm c2p c1p). ring. }
  assert (EhB : V2000.hBarPrime w = V2000.hBarPrime v).
  { rewrite whB, vhB. destruct ((c1p === $0) || (c2p === $0))%js.
    - exact_ops. lra.
    - exact_ops. rewrite (Rabs_minus_sym h2 h1), (Rplus_comm h2 h1). reflexivity. }
  assert (ET : V2000.T w = V2000.T v) by congruence.
  assert (EslC : V2000.slCoeff w = V2000.slCoeff v) by congruence.
  assert (Esl : V2000.sl w = V2000.sl v) by congruence.
  assert (Esc : V2000.sc w = V2000.sc v) by congruence.
  assert (Esh : V2000.sh w = V2000.sh v) by congruence.
  assert (ERtC : V2000.RtCoeff w = V2000.RtCoeff v) by congruence.
  assert (ERt : V2000.Rt w = V2000.Rt v) by congruence.
  assert (Et1 : V2000.firstTerm w = - V2000.firstTerm v).
  { rewrite wt1, vt1, EdL, wkl, vkl, Esl. exact_ops. unfold Rdiv. ring. }
  assert (Et2 : V2000.secondTerm w = - V2000.secondTerm v).
  { rewrite wt2, vt2, EdC, wkc, vkc, Esc. exact_ops. unfold Rdiv. ring. }
  assert (Et3 : V2000.thirdTerm w = - V2000.thirdTerm v).
  { rewrite wt3, vt3, EdH, wkh, vkh, Esh. exact_ops. unfold Rdiv. ring. }
  assert (Et4 : V2000.fourthTerm w = V2000.fourthTerm v).
  { rewrite wt4, vt4, ERt, Et2, Et3. exact_ops. ring. }
  repeat split; assumption.
Qed.

Lemma cie1976_body_same (c : Color R) : DeltaE.cie1976_body c c = 0.
Proof.
  destruct c as [[l a] b]. unfold DeltaE.cie1976_body. exact_ops. now zero_arith.
Qed.

Lemma cie1994_body_same (c : Color R) (t : option string) :
  DeltaE.cie1994_body c c t = 0.
Proof.
  destruct c as [[l a] b]. unfold DeltaE.cie1994_body, DeltaE.cie1994_vars.
  cbv zeta.
  destruct (_ =? "textiles")%string; [|destruct (_ =? "graphicArts")%string];
    cbn [V1994.firstTerm V1994.secondTerm V1994.thirdTerm]; exact_ops;
    now zero_arith.
Qed.

Lemma ciede2000_body_eqs (fuel : nat) (x y : Color R) (v : V2000.t R) :
  DeltaE.ciede2000_vars fuel x y = Some v ->
  DeltaE.ciede2000_body fuel x y =
  Some (sqrt (V2000.firstTerm v * V2000.firstTerm v
              + V2000.secondTerm v * V2000.secondTerm v
              + V2000.thirdTerm v * V2000.thirdTerm v + V2000.fourthTerm v)).
Proof. intros E. unfold DeltaE.ciede2000_body. rewrite E. reflexivity. Qed.

Lemma ciede2000_body_same (fuel : nat) (c : Color R) :
  (1 <= fuel)%nat -> DeltaE.ciede2000_body fuel c c = Some 0.
Proof.
  intros Hfuel.
  destruct (ciede2000_vars_exact fuel c c Hfuel) as (v & Ev & Heqs & _).
  rewrite (ciede2000_body_eqs _ _ _ _ Ev). f_equal.
  destruct Heqs as [vdL vlBar vcBar vP7 vcC va1 va2 vc1 vc2 vcB vdC vh1 vh2
                    vdh vdH vhB vT vslC vsl vsc vsh vRtC vRt vkl vkc vkh
                    vt1 vt2 vt3 vt4].
  assert (Ea : V2000.a1Prime v = V2000.a2Prime v) by congruence.
  assert (Ec : V2000.c1Prime v = V2000.c2Prime v) by congruence.
  assert (Eh : V2000.h1Prime v = V2000.h2Prime v)
    by (rewrite vh1, vh2, Ea; reflexivity).
  assert (EdL : V2000.deltaLPrime v = 0) by (rewrite vdL; exact_ops; lra).
  assert (EdC : V2000.deltaCPrime v = 0) by (rewrite vdC, Ec; exact_ops; lra).
  assert (Edh : V2000.deltaSmallHPrime v = 0).
  { rewrite vdh, Eh. destruct (_ || _); exact_ops; [lra|].
    rewrite Rminus_diag, Rabs_R0.
    rewrite (proj2 (Rleb_true 0 _)) by lra. reflexivity. }
  assert (EdH : V2000.deltaBigHPrime v = 0).
  { rewrite vdH, Edh. destruct (_ || _); [exact_ops; lra|].
    replace ((0 / $2)%js) with 0 by (exact_ops; unfold Rdiv; ring).
    rewrite sind_0. exact_ops. ring. }
  rewrite vt4, vt1, vt2, vt3, EdL, EdC, EdH. exact_ops. now zero_arith.
Qed.

Lemma cmc1984_vars_exact (fuel : nat) (x y : Color R) (t : option string) :
  (1 <= fuel)%nat ->
  exists v, DeltaE.cmc1984_vars fuel x y t = Some v /\ cmc1984_eqs fuel x y t v /\
            0 <= V1984.h1 v < 360 /\
            V1984.c1 v = Spec.chroma x /\ V1984.c2 v = Spec.chroma y.
Proof.
  intros Hfuel. destruct x as [[l1 a1] b1], y as [[l2 a2] b2].
  destruct (labToLch_exact fuel l1 a1 b1 Hfuel) as (H1 & E1 & Hr1 & _).
  destruct (labToLch_exact fuel l2 a2 b2 Hfuel) as (H2 & E2 & _).
  assert (exists v, DeltaE.cmc1984_vars fuel (l1, a1, b1) (l2, a2, b2) t = Some v)
    as [v Ev].
  { unfold DeltaE.cmc1984_vars. cbv zeta. rewrite E1, E2.
    destruct (_ =? "acceptability")%string;
      [|destruct (_ =? "imperceptibility")%string]; eexists; reflexivity. }
  exists v. split; [exact Ev|].
  pose proof (cmc1984_vars_eqs _ _ _ _ _ Ev) as Heqs.
  split; [exact Heqs|].
  pose proof (eq84_lch1 _ _ _ _ _ Heqs) as E1'.
  destruct (eq84_lch2 _ _ _ _ _ Heqs) as [H2' E2'].
  rewrite E1 in E1'. rewrite E2 in E2'.
  injection E1' as Ec1 Eh1. injection E2' as Ec2 _.
  rewrite <- Eh1. repeat split; try lra; symmetry; assumption.
Qed.

Lemma cmc1984_body_eqs (fuel : nat) (x y : Color R) (t : option string) (v : V1984.t R) :
  DeltaE.cmc1984_vars fuel x y t = Some v ->
  DeltaE.cmc1984_body fuel x y t =
  Some (sqrt (V1984.firstTerm v * V1984.firstTerm v
              + V1984.secondTerm v * V1984.secondTerm v
              + V1984.thirdTerm v * V1984.thirdTerm v)).
Proof. intros E. unfold DeltaE.cmc1984_body. rewrite E. reflexivity. Qed.

Lemma cmc1984_body_same (fuel : nat) (c : Color R) (t : option string) :
  (1 <= fuel)%nat -> DeltaE.cmc1984_body fuel c c t = Some 0.
Proof.
  intros Hfuel.
  destruct (cmc1984_vars_exact fuel c c t Hfuel) as (v & Ev & Heqs & _ & Ec1 & Ec2).
  rewrite (cmc1984_body_eqs _ _ _ _ _ Ev). f_equal.
  destruct Heqs as [_ _ _ _ _ _ _ _ _ vdA vdB vdC vdH vt1 vt2 vt3].
  assert (Ec : V1984.c1 v = V1984.c2 v) by congruence.
  assert (EdA : V1984.deltaA v = 0) by (rewrite vdA; exact_ops; lra).
  assert (EdB : V1984.deltaB v = 0) by (rewrite vdB; exact_ops; lra).
  assert (EdC : V1984.deltaC v = 0) by (rewrite vdC, Ec; exact_ops; lra).
  assert (EdH : V1984.deltaH v = 0)
    by (rewrite vdH, EdA, EdB, EdC; exact_ops; now zero_arith).
  rewrite vt1, vt2, vt3, EdH, Ec. exact_ops. now zero_arith.
Qed.

(** [Math.atan2(-1, 0)] is [-PI/2]: the hue of a colour on the negative [b]
    axis is [-90] degrees. *)
Lemma atan2d_minus_b_axis : atan2d (-1) 0 = -90.
Proof.
  rewrite atan2d_exact. unfold Ratan2.
  destruct (Rlt_dec 0 0) as [F|_]; [lra|].
  destruct (Rlt_dec 0 (-1)) as [F|_]; [lra|].
  destruct (Rlt_dec (-1) 0) as [_|F]; [|lra].
  pose proof PI_RGT_0. field. lra.
Qed.

Lemma chroma_difference_bound (a1 b1 a2 b2 : R) :
  0 <= (a1 - a2) * (a1 - a2) + (b1 - b2) * (b1 - b2)
       - (sqrt (a1 * a1 + b1 * b1) - sqrt (a2 * a2 + b2 * b2))
         * (sqrt (a1 * a1 + b1 * b1) - sqrt (a2 * a2 + b2 * b2)).
Proof.
  assert (H1 : 0 <= a1 * a1 + b1 * b1) by nra.
  assert (H2 : 0 <= a2 * a2 + b2 * b2) by nra.
  pose proof (sqrt_pos (a1 * a1 + b1 * b1)) as P1.
  pose proof (sqrt_pos (a2 * a2 + b2 * b2)) as P2.
  pose proof (sqrt_sqrt _ H1) as S1. pose proof (sqrt_sqrt _ H2) as S2.
  set (c1 := sqrt (a1 * a1 + b1 * b1)) in *.
  set (c2 := sqrt (a2 * a2 + b2 * b2)) in *.
  assert (Hcs : a1 * a2 + b1 * b2 <= c1 * c2).
  { destruct (Rle_dec (a1 * a2 + b1 * b2) 0) as [Hn | Hp]; [nra|].
    apply Rnot_le_lt in Hp.
    assert (Hsq : (a1 * a2 + b1 * b2) * (a1 * a2 + b1 * b2) <= (c1 * c2) * (c1 * c2)).
    { replace ((c1 * c2) * (c1 * c2)) with ((c1 * c1) * (c2 * c2)) by ring.
      rewrite S1, S2.
      pose proof (Rle_0_sqr (a1 * b2 - a2 * b1)) as Hd. unfold Rsqr in Hd. lra. }
    assert (0 <= c1 * c2) by nra. nra. }
  nra.
Qed.

Lemma Rpow_7 (x : R) : Rpow x (Q2R 7) = x ^ 7.
Proof.
  unfold Rpow. replace (Q2R 7) with (IZR 7) by (unfold Q2R; cbn; lra).
  replace (Int_part 7) with 7%Z by (apply Int_part_spec; lra).
  destruct (Req_dec_T 7 7) as [_|N]; [|contradiction].
  reflexivity.
Qed.

Lemma ciede2000_T_pos (h : R) :
  0.07 <= 1 - 0.17 * cos (deg (h - 30)) + 0.24 * cos (deg (2 * h))
            + 0.32 * cos (deg (3 * h + 6)) - 0.2 * cos (deg (4 * h - 63)).
Proof.
  pose proof (COS_bound (deg (h - 30))). pose proof (COS_bound (deg (2 * h))).
  pose proof (COS_bound (deg (3 * h + 6))). pose proof (COS_bound (deg (4 * h - 63))).
  lra.
Qed.

Lemma cosd_exact (x : R) : cosd x = cos (deg x).
Proof. unfold cosd, _degToRad, deg. exact_ops. f_equal. field. Qed.

Lemma sind_exact (x : R) : sind x = sin (deg x).
Proof. unfold sind, _degToRad, deg. exact_ops. f_equal. field. Qed.

Lemma cross_term_bound (f s t r : R) :
  -2 <= r <= 2 -> 0 <= f * f + s * s + t * t + r * s * t.
Proof.
  intros Hr.
  pose proof (Rle_0_sqr f) as Hf. pose proof (Rle_0_sqr (s - t)) as Hm.
  pose proof (Rle_0_sqr (s + t)) as Hp. unfold Rsqr in *.
  destruct (Rle_dec 0 (s * t)); nra.
Qed.

Lemma ratio_sqrt_unit (p q : R) :
  0 <= p -> 0 < q -> 0 <= p / (p + q) /\ 0 <= sqrt (p / (p + q)) <= 1.
Proof.
  intros Hp Hq.
  assert (H0 : 0 <= p / (p + q)).
  { apply Rmult_le_pos; [lra|]. left. apply Rinv_0_lt_compat. lra. }
  assert (H1 : p / (p + q) <= 1).
  { apply Rmult_le_reg_r with (p + q); [lra|].
    unfold Rdiv. rewrite Rmult_assoc, Rinv_l; lra. }
  split; [exact H0|]. split; [apply sqrt_pos|].
  apply Rle_trans with (sqrt 1); [apply sqrt_le_1; lra | rewrite sqrt_1; lra].
Qed.

(** In [ciede2000], over the reals, no divisor is zero and no radicand is
    negative. *)
Lemma ciede2000_well_defined (x y : Color R) (v : V2000.t R) :
  ciede2000_eqs x y v -> 0 <= V2000.c1 v -> 0 <= V2000.c2 v ->
  (V2000.cBarPow7 v + Math_pow ($25)%js ($7)%js <> 0 /\
   sqrt (20 + V2000.slCoeff v) <> 0 /\
   V2000.kl v * V2000.sl v <> 0 /\
   V2000.kc v * V2000.sc v <> 0 /\
   V2000.kh v * V2000.sh v <> 0) /\
  (0 <= V2000.cBarPow7 v / (V2000.cBarPow7 v + Math_pow ($25)%js ($7)%js) /\
   0 <= 20 + V2000.slCoeff v /\
   0 <= V2000.c1Prime v * V2000.c2Prime v /\
   0 <= V2000.firstTerm v * V2000.firstTerm v
        + V2000.secondTerm v * V2000.secondTerm v
        + V2000.thirdTerm v * V2000.thirdTerm v + V2000.fourthTerm v).
Proof.
  intros Heqs Hc1 Hc2.
  destruct Heqs as [vdL vlBar vcBar vP7 vcC va1 va2 vc1 vc2 vcB vdC vh1 vh2
                    vdh vdH vhB vT vslC vsl vsc vsh vRtC vRt vkl vkc vkh
                    vt1 vt2 vt3 vt4].
  assert (HcBar : 0 <= V2000.cBar v).
  { rewrite vcBar. exact_num. lra. }
  assert (HP7 : 0 <= V2000.cBarPow7 v).
  { rewrite vP7. cbn [Math_pow R_JSMath literal R_JSNumber]. rewrite Rpow_7.
    now apply pow_le. }
  assert (H25 : 0 < Math_pow ($25)%js ($7)%js).
  { cbn [Math_pow R_JSMath literal R_JSNumber]. rewrite Rpow_7.
    apply pow_lt. unfold Q2R. cbn. lra. }
  destruct (ratio_sqrt_unit _ _ HP7 H25) as (Hratio & HcC0 & HcC1).
  assert (HcC : 0 <= V2000.cCoeff v <= 1) by (rewrite vcC; exact (conj HcC0 HcC1)).
  assert (HslC : 0 <= V2000.slCoeff v).
  { rewrite vslC. cbn [mul R_JSNumber]. apply Rle_0_sqr. }
  assert (Hsq : 0 < sqrt (20 + V2000.slCoeff v)) by (apply sqrt_lt_R0; lra).
  assert (Hsl : 1 <= V2000.sl v).
  { rewrite vsl. exact_num.
    assert (0 <= 15 * / 1000 * V2000.slCoeff v / sqrt (20 + V2000.slCoeff v)).
    { apply Rmult_le_pos; [lra|]. left. now apply Rinv_0_lt_compat. }
    lra. }
  assert (Hc1p : 0 <= V2000.c1Prime v) by (rewrite vc1; apply sqrt_pos).
  assert (Hc2p : 0 <= V2000.c2Prime v) by (rewrite vc2; apply sqrt_pos).
  assert (HcB : 0 <= V2000.cBarPrime v) by (rewrite vcB; exact_num; lra).
  assert (Hsc : 1 <= V2000.sc v) by (rewrite vsc; exact_num; nra).
  assert (HT : 0.07 <= V2000.T v).
  { rewrite vT, !cosd_exact. exact_num.
    pose proof (ciede2000_T_pos (V2000.hBarPrime v)) as HTp.
    lra. }
  assert (Hsh : 1 <= V2000.sh v) by (rewrite vsh; exact_num; nra).
  assert (HRt : -2 <= V2000.Rt v <= 2).
  { rewrite vRt, sind_exact. exact_num.
    pose proof (SIN_bound (deg (V2000.RtCoeff v))). nra. }
  split.
  - rewrite vkl, vkc, vkh. exact_num. repeat split; nra.
  - repeat split; try lra; try nra.
    rewrite vt4. exact_num.
    now apply cross_term_bound.
Qed.

(** In [cie1994], over the reals, no divisor is zero and the radicand of
    [deltaH] is not negative. *)
Lemma cie1994_well_defined (x y : Color R) (t : option string) :
  let v := DeltaE.cie1994_vars x y t in
  (V1994.kl v * V1994.sl v <> 0 /\ V1994.kc v * V1994.sc v <> 0 /\
   V1994.kh v * V1994.sh v <> 0) /\
  0 <= V1994.deltaA v * V1994.deltaA v + V1994.deltaB v * V1994.deltaB v
       - V1994.deltaC v * V1994.deltaC v.
Proof.
  destruct x as [[l1 a1] b1], y as [[l2 a2] b2].
  pose proof (sqrt_pos (a1 * a1 + b1 * b1)) as P1.
  pose proof (sqrt_pos (a2 * a2 + b2 * b2)) as P2.
  pose proof (chroma_difference_bound a1 b1 a2 b2) as Hcs.
  unfold DeltaE.cie1994_vars, getklValueFromType. cbv zeta.
  destruct (_ =? "textiles")%string; [|destruct (_ =? "graphicArts")%string];
    cbn [V1994.kl V1994.kc V1994.kh V1994.sl V1994.sc V1994.sh
         V1994.deltaA V1994.deltaB V1994.deltaC];
    exact_num; (split; [repeat split; nra | exact Hcs]).
Qed.

(** In [cmc1984], over the reals, no divisor is zero and no radicand is
    negative. *)
Lemma cmc1984_well_defined (fuel : nat) (x y : Color R) (t : option string)
    (v : V1984.t R) :
  cmc1984_eqs fuel x y t v ->
  (V1984.c1Pow4 v + 1900 <> 0 /\
   (16 <= Spec.channel x l_star -> 1 + 0.01765 * Spec.channel x l_star <> 0) /\
   1 + 0.0131 * V1984.c1 v <> 0 /\
   V1984.l v * V1984.sl v <> 0 /\ V1984.c v * V1984.sc v <> 0 /\
   V1984.sh v <> 0) /\
  (0 <= V1984.c1Pow4 v / (V1984.c1Pow4 v + 1900) /\
   0 <= V1984.deltaA v * V1984.deltaA v + V1984.deltaB v * V1984.deltaB v
        - V1984.deltaC v * V1984.deltaC v).
Proof.
  intros [vlc vlch1 [H2 vlch2] vP4 vF vT vsl vsc vsh vdA vdB vdC vdH vt1 vt2 vt3].
  destruct x as [[l1 a1] b1], y as [[l2 a2] b2].
  pose proof (labToLch_chroma _ _ _ _ _ vlch1) as Ec1.
  pose proof (labToLch_chroma _ _ _ _ _ vlch2) as Ec2.
  cbn [fst snd Spec.channel] in *.
  pose proof (sqrt_pos (a1 * a1 + b1 * b1)) as P1. rewrite <- Ec1 in P1.
  assert (HP4 : 0 <= V1984.c1Pow4 v).
  { rewrite vP4. cbn [mul R_JSNumber].
    replace (V1984.c1 v * V1984.c1 v * V1984.c1 v * V1984.c1 v)
      with (Rsqr (V1984.c1 v * V1984.c1 v)) by (unfold Rsqr; ring).
    apply Rle_0_sqr. }
  destruct (ratio_sqrt_unit _ 1900 HP4 ltac:(lra)) as (Hratio & HF0 & HF1).
  assert (HF : 0 <= V1984.F v <= 1).
  { rewrite vF. exact_num. exact (conj HF0 HF1). }
  assert (HT : 0.36 <= V1984.T v).
  { rewrite vT. destruct (_ && _); exact_num;
      match goal with |- context [Rabs ?z] => pose proof (Rabs_pos z) end; lra. }
  assert (Hsl : 0 < V1984.sl v).
  { rewrite vsl. exact_num. destruct (Rltb l1 16) eqn:E; [lra|].
    apply Rltb_false in E.
    apply Rmult_lt_0_compat; [lra|]. apply Rinv_0_lt_compat. lra. }
  assert (Hsc : 0.638 <= V1984.sc v).
  { rewrite vsc. exact_num.
    assert (0 <= 638 * / 10000 * V1984.c1 v / (1 + 131 * / 10000 * V1984.c1 v)).
    { apply Rmult_le_pos; [lra|]. left. apply Rinv_0_lt_compat. lra. }
    lra. }
  assert (Hsh : 0 < V1984.sh v).
  { rewrite vsh. exact_num. apply Rmult_lt_0_compat; [lra|].
    assert (0 <= V1984.F v * (V1984.T v - 0.36)) by (apply Rmult_le_pos; lra).
    lra. }
  assert (Hlc : (V1984.l v = 1 \/ V1984.l v = 2) /\ V1984.c v = 1).
  { cbv zeta in vlc.
    destruct (_ =? "acceptability")%string;
      [|destruct (_ =? "imperceptibility")%string];
      injection vlc as -> ->; exact_num; split; auto. }
  split.
  - repeat split; try lra.
    + destruct Hlc as [[-> | ->] _]; apply Rgt_not_eq; lra.
    + destruct Hlc as [_ ->]. apply Rgt_not_eq. lra.
  - split; [exact Hratio|].
    rewrite vdA, vdB, vdC, Ec1, Ec2. exact_num. apply chroma_difference_bound.
Qed.
End ExactFacts.


(** * The binary64 reading *)

Module Binary64Facts.
Import Binary64.
Local Open Scope float_scope.

(** The literals of the source are the doubles a JavaScript engine reads. *)
Example literals_are_nearest_doubles :
  Fliteral 0.045 = 0.045 /\ Fliteral 0.015 = 0.015 /\ Fliteral 0.048 = 0.048 /\
  Fliteral 0.014 = 0.014 /\ Fliteral 0.511 = 0.511 /\
  Fliteral 0.040975 = 0.040975 /\ Fliteral 0.01765 = 0.01765 /\
  Fliteral 0.0638 = 0.0638 /\ Fliteral 0.0131 = 0.0131 /\
  Fliteral 0.638 = 0.638 /\ Fliteral (-128) = -128 /\ Fliteral 1900 = 1900.
Proof. repeat split; vm_compute; reflexivity. Qed.

(** [%] agrees with C's [fmod] on these arguments. *)
Example Frem_values :
  Frem (-90) 360 = -90 /\ Frem 725.5 360 = 5.5 /\ Frem (-5) 3 = -2 /\
  Frem 5.5 (-2) = 1.5 /\ Frem 0.3 0.1 = 0.09999999999999998 /\
  Frem 1e22 7 = 4.
Proof. repeat split; vm_compute; reflexivity. Qed.

(** The values tests/test.js expects of [cie1976] and [cie1994], to the
    digits [toFixed] keeps there. *)
Example test_vectors :
  (exists r, DeltaE.cie1976 (lab 50 25 39) (lab 80 12 93) = Ok r /\
             (63.1265 <=? r) = true /\ (r <? 63.1275) = true) /\
  (exists r, DeltaE.cie1994 (lab 55 60 48) (lab 55 65 53) None = Ok r /\
             (1.605 <=? r) = true /\ (r <? 1.615) = true) /\
  (exists r, DeltaE.cie1994 (lab 55 60 48) (lab 55 65 53) (Some "graphicArts"%string) = Ok r /\
             (1.605 <=? r) = true /\ (r <? 1.615) = true) /\
  (exists r, DeltaE.cie1994 (lab 55 60 48) (lab 55 65 53) (Some "textiles"%string) = Ok r /\
             (1.535 <=? r) = true /\ (r <? 1.545) = true) /\
  DeltaE.cie1976 (lab 0 0 0) (lab 0 0 0) = Ok 0 /\
  DeltaE.cie1994 (lab 0 0 0) (lab 0 0 0) None = Ok 0.
Proof.
  repeat split; try (eexists; split; [vm_compute; reflexivity | split; vm_compute; reflexivity]);
    vm_compute; reflexivity.
Qed.

(** The values tests/test.js expects of [labToLch], [ciede2000] and
    [cmc1984], on the series host: [labToLch([93, -1, 25])] rounds to
    [[93, 25, 92]], [ciede2000] is 1.58 to two digits, [cmc1984] is 2.339 to
    three digits for both thresholds, and identical colours are at distance
    0. *)
Example test_vectors_on_the_series_host :
  (exists C H, labToLch (M := series_host) 1 (93, -1, 25) = Some (93, C, H) /\
               (24.5 <=? C) = true /\ (C <? 25.5) = true /\
               (91.5 <=? H) = true /\ (H <? 92.5) = true) /\
  (exists r, DeltaE.ciede2000 (M := series_host) 1 (lab 55 60 48) (lab 55 65 53)
             = Ok (Some r) /\
             (1.575 <=? r) = true /\ (r <? 1.585) = true) /\
  (exists r, DeltaE.cmc1984 (M := series_host) 1 (lab 55 60 48) (lab 55 65 53) None
             = Ok (Some r) /\
             (2.3385 <=? r) = true /\ (r <? 2.3395) = true) /\
  (exists r, DeltaE.cmc1984 (M := series_host) 1 (lab 55 60 48) (lab 55 65 53)
               (Some "imperceptibility"%string)
             = Ok (Some r) /\
             (2.3385 <=? r) = true /\ (r <? 2.3395) = true) /\
  DeltaE.ciede2000 (M := series_host) 1 (lab 0 0 0) (lab 0 0 0) = Ok (Some 0) /\
  DeltaE.cmc1984 (M := series_host) 1 (lab 0 0 0) (lab 0 0 0) None = Ok (Some 0).
Proof.
  split; [do 2 eexists; split; [vm_compute; reflexivity|];
          repeat split; vm_compute; reflexivity|].
  repeat split;
    try (eexists; split; [vm_compute; reflexivity | split; vm_compute; reflexivity]);
    vm_compute; reflexivity.
Qed.

(** On the series host the hues of [ciede2000] are negative for a colour with
    [b < 0], as they are in the exact reading. *)
Example negative_hue_on_the_series_host :
  exists v : V2000.t float,
    DeltaE.ciede2000_vars (M := series_host) 1 (50, 0, -1) (50, 0, -1) = Some v /\
    V2000.h1Prime v = -90 /\ V2000.hBarPrime v = -90.
Proof. eexists. split; [vm_compute; reflexivity|]. split; vm_compute; reflexivity. Qed.

(** [NaN] absorbs. *)
Lemma nan_div (x : float) : nan / x = nan.
Proof.
  rewrite <- (SF2Prim_Prim2SF (nan / x)), FloatAxioms.div_spec. reflexivity.
Qed.

Lemma add_nan (x : float) : x + nan = nan.
Proof.
  rewrite <- (SF2Prim_Prim2SF (x + nan)), FloatAxioms.add_spec.
  change (Prim2SF nan) with S754_nan.
  destruct (Prim2SF x) as [s|s| |s m e]; try destruct s; reflexivity.
Qed.

(** [labToLch] on the two colours of the negative radicand. *)
Lemma labToLch_grey (host : JSMath float) (fuel : nat) :
  labToLch fuel (50, 0, 0) = Some (50, 0, 0).
Proof. unfold labToLch. rewrite !while_done by reflexivity. reflexivity. Qed.

(** Rounding at the upper end of the hue range.  For the valid colour
    [50, 1, -1e-20] the angle [atan2d(-1e-20, 1)] is about [-5.7e-19]
    ([atan2(-1e-20, 1)], correctly rounded, is [-1e-20]); adding 360 to it
    gives, after rounding, 360 itself, which [labToLch] returns although the
    exact sum is below 360. *)
Remark labToLch_rounds_up_to_360 (host : JSMath float) (fuel : nat) :
  Math_atan2 (-1e-20) 1 = -1e-20 -> (1 <= fuel)%nat ->
  _checkColor [50; 1; -1e-20] false = Ok (50, 1, -1e-20) /\
  labToLch fuel (50, 1, -1e-20) = Some (50, 1, 360).
Proof.
  intros Hatan Hfuel. split; [vm_compute; reflexivity|].
  destruct fuel as [|fuel]; [lia|]. unfold labToLch.
  change (Math_sqrt (1 * 1 + -1e-20 * -1e-20)%js <=? $0)%js with false.
  cbv iota. unfold atan2d. rewrite Hatan.
  rewrite while_done by reflexivity.
  rewrite while_step by reflexivity.
  rewrite while_done by reflexivity. vm_compute. reflexivity.
Qed.

Lemma labToLch_diagonal (host : JSMath float) (fuel : nat) :
  Math_atan2 1 1 = 0.7853981633974483 ->
  labToLch fuel (50, 1, 1) = Some (50, 1.4142135623730951, 45).
Proof.
  intros Hatan. unfold labToLch.
  change (Math_sqrt (1 * 1 + 1 * 1)%js <=? $0)%js with false.
  cbv iota. unfold atan2d. rewrite Hatan.
  rewrite !while_done by reflexivity. reflexivity.
Qed.
End Binary64Facts.


(** * The properties of the specification *)

Section ValidationProperties.
Import Binary64.
Local Open Scope float_scope.

(** C4.  [_checkColor] is the checkColor of the specification: it throws
    [ChannelCountError] when the length of the input is not 3, unless
    [discardExcessChannels] is true and the length is above 3, in which case
    only the first 3 elements are kept; then it throws
    [CoordinateRangeError] when a channel is outside L in [0,100], a in
    [-128,127], b in [-128,127], and the error lists every out-of-range
    channel with its value; otherwise it returns the 3-channel colour
    unchanged.  The count is checked before the range: [1,2,3,4] without
    discarding throws [ChannelCountError], with discarding gives [1,2,3];
    [1,2] always throws [ChannelCountError]; [200,200,200] throws
    [CoordinateRangeError]. *)
Theorem checkColor_count_then_range :
  (forall (num : Type) (N : JSNumber num) (x : list num) (discard : bool),
      _checkColor x discard = Spec.checkColor x discard) /\
  (forall (num : Type) (N : JSNumber num) (c : Color num),
      CoordinateRangeError_err c (_isValidLabColor c) =
      map (fun ch => (ch, Spec.channel c ch)) (Spec.out_of_range_channels c)) /\
  _checkColor [1; 2; 3; 4] false = Throw (ChannelCountError [1; 2; 3; 4] 3) /\
  _checkColor [1; 2; 3; 4] true = Ok (1, 2, 3) /\
  (forall discard, _checkColor [1; 2] discard = Throw (ChannelCountError [1; 2] 3)) /\
  (forall discard,
      _checkColor [200; 200; 200] discard =
      Throw (CoordinateRangeError (200, 200, 200) [false; false; false])).
Proof.
  split; [intros; apply _checkColor_refines|].
  split; [intros; apply CoordinateRangeError_err_spec|].
  repeat split; try (intros []); vm_compute; reflexivity.
Qed.

(** C5, as stated, fails: with a 3-channel first argument that is out of
    range, a 4-channel second argument is never looked at, and [cie1976]
    throws [CoordinateRangeError], not [ChannelCountError]. *)
Lemma out_of_range_first_hides_four_channel_second :
  ~ (forall x y : list float,
        length x <> 3%nat \/ length y <> 3%nat ->
        exists z n, DeltaE.cie1976 x y = Throw (ChannelCountError z n)).
Proof.
  intros Hclaim.
  destruct (Hclaim (lab 200 0 0) [0; 0; 0; 0]) as (z & n & E).
  - right. discriminate.
  - vm_compute in E. discriminate.
Qed.

(** C5, amended.  Each of the four formulas validates its first argument,
    then its second, with [discardExcessChannels = false], before it computes
    anything.  When either array does not have exactly 3 elements no formula
    returns a number; the call throws [ChannelCountError] for the first
    argument when that one does not have 3 elements, and for the second
    argument when the first passes validation; whatever the first argument's
    validation throws is what the call throws. *)
Theorem formulas_validate_before_computing
    (num : Type) (N : JSNumber num) (M : JSMath num)
    (fuel : nat) (x y : list num) (applicationType thresholdType : option string) :
  length x <> 3%nat \/ length y <> 3%nat ->
  ((forall r, DeltaE.cie1976 x y <> Ok r) /\
   (forall r, DeltaE.cie1994 x y applicationType <> Ok r) /\
   (forall r, DeltaE.ciede2000 fuel x y <> Ok r) /\
   (forall r, DeltaE.cmc1984 fuel x y thresholdType <> Ok r)) /\
  (length x <> 3%nat ->
   DeltaE.cie1976 x y = Throw (ChannelCountError x 3) /\
   DeltaE.cie1994 x y applicationType = Throw (ChannelCountError x 3) /\
   DeltaE.ciede2000 fuel x y = Throw (ChannelCountError x 3) /\
   DeltaE.cmc1984 fuel x y thresholdType = Throw (ChannelCountError x 3)) /\
  (forall cx, _checkColor x false = Ok cx ->
   DeltaE.cie1976 x y = Throw (ChannelCountError y 3) /\
   DeltaE.cie1994 x y applicationType = Throw (ChannelCountError y 3) /\
   DeltaE.ciede2000 fuel x y = Throw (ChannelCountError y 3) /\
   DeltaE.cmc1984 fuel x y thresholdType = Throw (ChannelCountError y 3)) /\
  (forall e, _checkColor x false = Throw e ->
   DeltaE.cie1976 x y = Throw e /\
   DeltaE.cie1994 x y applicationType = Throw e /\
   DeltaE.ciede2000 fuel x y = Throw e /\
   DeltaE.cmc1984 fuel x y thresholdType = Throw e).
Proof.
  intros Hlen. unfold DeltaE.cie1976, DeltaE.cie1994, DeltaE.ciede2000, DeltaE.cmc1984.
  split; [|split; [|split]];
    [| | |intros e Ex; unfold validateColorInputs; rewrite Ex; repeat split].
  - repeat split; intros r E;
      destruct (validateColorInputs_Ok_inv _ _ _ _ E) as (cx & cy & Ex & Ey & _);
      apply _checkColor_Ok_length in Ex, Ey; lia.
  - intros Hx. repeat split; now apply validateColorInputs_first.
  - intros cx Ex.
    assert (Hy : length y <> 3%nat)
      by (pose proof (_checkColor_Ok_length _ _ Ex); lia).
    repeat split; now apply validateColorInputs_second with cx.
Qed.

Lemma formulas_validate_before_computing_witness :
  (length (lab 50 60 48) <> 3%nat \/ length [0; 0; 0; 0] <> 3%nat) /\
  _checkColor (lab 50 60 48) false = Ok (50, 60, 48) /\
  DeltaE.cie1976 (lab 50 60 48) [0; 0; 0; 0]
  = Throw (ChannelCountError [0; 0; 0; 0] 3) /\
  DeltaE.ciede2000 (M := series_host) 1 (lab 50 60 48) [0; 0; 0; 0]
  = Throw (ChannelCountError [0; 0; 0; 0] 3).
Proof.
  assert (Hlen : length (lab 50 60 48) <> 3%nat \/ length [0; 0; 0; 0] <> 3%nat)
    by (right; discriminate).
  assert (Hx : _checkColor (lab 50 60 48) false = Ok (50, 60, 48))
    by (vm_compute; reflexivity).
  split; [exact Hlen|]. split; [exact Hx|].
  destruct (formulas_validate_before_computing float _ series_host 1
              (lab 50 60 48) [0; 0; 0; 0] None None Hlen)
    as (_ & _ & Hsecond & _).
  destruct (Hsecond _ Hx) as (E76 & _ & E2000 & _).
  split; [exact E76 | exact E2000].
Defined.
End ValidationProperties.

Section GenericProperties.
Context {num : Type} {N : JSNumber num}.
Local Open Scope js_scope.

Lemma getklValueFromType_spec (s : string) :
  getklValueFromType s = $(Spec.getKlValue s).
Proof.
  unfold getklValueFromType, Spec.getKlValue.
  destruct (string_dec s "textiles") as [-> | Hs]; [reflexivity|].
  rewrite (proj2 (String.eqb_neq _ _) Hs).
  destruct (s =? "graphicArts")%string; reflexivity.
Qed.

Lemma cie1994_body_refines (x y : Color num) (t : option string) :
  DeltaE.cie1994_body x y t = Spec.cie1994 x y t.
Proof.
  destruct x as [[l1 a1] b1], y as [[l2 a2] b2].
  unfold DeltaE.cie1994_body, DeltaE.cie1994_vars, Spec.cie1994,
    Spec.cie1994_weights, getklValueFromType.
  destruct t as [s|]; cbv zeta.
  - destruct (string_dec s "textiles") as [-> | Hs]; [reflexivity|].
    rewrite (proj2 (String.eqb_neq _ _) Hs).
    destruct (s =? "graphicArts")%string; reflexivity.
  - reflexivity.
Qed.
End GenericProperties.

Section ExactProperties.
Import Exact ExactFacts.
Local Open Scope R_scope.



(** C3.  For a colour [x] within bounds, [cie1976(x, x)],
    [cie1994(x, x, t)] for every application type, [ciede2000(x, x)] and
    [cmc1984(x, x, t)] for every threshold type are all 0. *)
Theorem identical_colours_are_at_distance_zero
    (fuel : nat) (x : Color R) (applicationType thresholdType : option string) :
  in_gamut x -> (1 <= fuel)%nat ->
  DeltaE.cie1976 (array x) (array x) = Ok 0 /\
  DeltaE.cie1994 (array x) (array x) applicationType = Ok 0 /\
  DeltaE.ciede2000 fuel (array x) (array x) = Ok (Some 0) /\
  DeltaE.cmc1984 fuel (array x) (array x) thresholdType = Ok (Some 0).
Proof.
  intros Hx Hfuel.
  pose proof (in_gamut_checkColor x false Hx) as Ex.
  unfold DeltaE.cie1976, DeltaE.cie1994, DeltaE.ciede2000, DeltaE.cmc1984.
  rewrite !(validateColorInputs_Ok _ _ _ _ _ Ex Ex).
  rewrite cie1976_body_same, cie1994_body_same, ciede2000_body_same,
    cmc1984_body_same by assumption.
  repeat split.
Qed.

Lemma in_gamut_50_25_39 : in_gamut (50, 25, 39).
Proof. cbn. lra. Defined.

Lemma identical_colours_are_at_distance_zero_witness :
  in_gamut (50, 25, 39) /\ (1 <= 1)%nat /\
  DeltaE.cie1976 (array (50, 25, 39)) (array (50, 25, 39)) = Ok 0 /\
  DeltaE.cie1994 (array (50, 25, 39)) (array (50, 25, 39)) (Some "textiles"%string) = Ok 0 /\
  DeltaE.ciede2000 1 (array (50, 25, 39)) (array (50, 25, 39)) = Ok (Some 0) /\
  DeltaE.cmc1984 1 (array (50, 25, 39)) (array (50, 25, 39)) None = Ok (Some 0).
Proof.
  split; [exact in_gamut_50_25_39|]. split; [exact (le_n 1)|].
  exact (identical_colours_are_at_distance_zero 1 (50, 25, 39)
           (Some "textiles"%string) None in_gamut_50_25_39 (le_n 1)).
Defined.


Lemma in_gamut_55_60_48 : in_gamut (55, 60, 48).
Proof. cbn. lra. Defined.

Lemma in_gamut_55_65_53 : in_gamut (55, 65, 53).
Proof. cbn. lra. Defined.


(** C10.  [ciede2000] is symmetric on valid colours: both orders return the
    same number.  Swapping the arguments negates [dL'], [dC'], [dh'] and
    [dH'], and leaves [hbar'], [T], [Sl], [Sc], [Sh], the three squared terms
    and the [Rt] cross term as they are. *)
Theorem ciede2000_symmetric (fuel : nat) (x y : Color R) :
  in_gamut x -> in_gamut y -> (1 <= fuel)%nat ->
  (exists r : R,
      DeltaE.ciede2000 fuel (array x) (array y) = Ok (Some r) /\
      DeltaE.ciede2000 fuel (array y) (array x) = Ok (Some r)) /\
  exists v w : V2000.t R,
    DeltaE.ciede2000_vars fuel x y = Some v /\
    DeltaE.ciede2000_vars fuel y x = Some w /\
    (V2000.deltaLPrime w = - V2000.deltaLPrime v /\
     V2000.deltaCPrime w = - V2000.deltaCPrime v /\
     V2000.deltaSmallHPrime w = - V2000.deltaSmallHPrime v /\
     V2000.deltaBigHPrime w = - V2000.deltaBigHPrime v) /\
    (V2000.hBarPrime w = V2000.hBarPrime v /\
     V2000.T w = V2000.T v /\
     V2000.sl w = V2000.sl v /\ V2000.sc w = V2000.sc v /\ V2000.sh w = V2000.sh v) /\
    (V2000.firstTerm w * V2000.firstTerm w = V2000.firstTerm v * V2000.firstTerm v /\
     V2000.secondTerm w * V2000.secondTerm w = V2000.secondTerm v * V2000.secondTerm v /\
     V2000.thirdTerm w * V2000.thirdTerm w = V2000.thirdTerm v * V2000.thirdTerm v /\
     V2000.fourthTerm w = V2000.fourthTerm v).
Proof.
  intros Hx Hy Hfuel.
  destruct (ciede2000_vars_exact fuel x y Hfuel) as (v & Ev & Hv & Hv1 & Hv2).
  destruct (ciede2000_vars_exact fuel y x Hfuel) as (w & Ew & Hw & Hw1 & Hw2).
  destruct (ciede2000_swap x y v w Hv Hw) as (Hneg & Hsame & Ht1 & Ht2 & Ht3 & Ht4);
    [congruence | congruence |].
  assert (Hsq1 : V2000.firstTerm w * V2000.firstTerm w
                 = V2000.firstTerm v * V2000.firstTerm v) by (rewrite Ht1; ring).
  assert (Hsq2 : V2000.secondTerm w * V2000.secondTerm w
                 = V2000.secondTerm v * V2000.secondTerm v) by (rewrite Ht2; ring).
  assert (Hsq3 : V2000.thirdTerm w * V2000.thirdTerm w
                 = V2000.thirdTerm v * V2000.thirdTerm v) by (rewrite Ht3; ring).
  split.
  - eexists. unfold DeltaE.ciede2000.
    rewrite (validateColorInputs_Ok _ _ _ _ _ (in_gamut_checkColor x false Hx)
               (in_gamut_checkColor y false Hy)).
    rewrite (validateColorInputs_Ok _ _ _ _ _ (in_gamut_checkColor y false Hy)
               (in_gamut_checkColor x false Hx)).
    rewrite (ciede2000_body_eqs _ _ _ _ Ev), (ciede2000_body_eqs _ _ _ _ Ew).
    rewrite Hsq1, Hsq2, Hsq3, Ht4. split; reflexivity.
  - exists v, w. split; [exact Ev|]. split; [exact Ew|].
    split; [exact Hneg|]. split; [tauto|]. repeat split; assumption.
Qed.

Lemma ciede2000_symmetric_witness :
  in_gamut (55, 60, 48) /\ in_gamut (55, 65, 53) /\ (1 <= 1)%nat /\
  exists r : R,
    DeltaE.ciede2000 1 (array (55, 60, 48)) (array (55, 65, 53)) = Ok (Some r) /\
    DeltaE.ciede2000 1 (array (55, 65, 53)) (array (55, 60, 48)) = Ok (Some r).
Proof.
  split; [exact in_gamut_55_60_48|]. split; [exact in_gamut_55_65_53|].
  split; [exact (le_n 1)|].
  exact (proj1 (ciede2000_symmetric 1 (55, 60, 48) (55, 65, 53)
                  in_gamut_55_60_48 in_gamut_55_65_53 (le_n 1))).
Defined.

(** C2 does not hold of the code.  For the valid colour [50, 0, -1] the hue
    [h'] computed by [ciede2000] is [atan2d(-1, 0) % 360 = -90], outside
    [[0, 360)]: the remainder [%] keeps the sign of the angle.  The mean hue
    of that colour with itself is [-90] as well. *)
Theorem ciede2000_hue_is_negative_below_the_a_axis :
  in_gamut (50, 0, -1) /\
  exists v : V2000.t R,
    DeltaE.ciede2000_vars 1 (50, 0, -1) (50, 0, -1) = Some v /\
    V2000.h1Prime v = -90 /\ V2000.h2Prime v = -90 /\ V2000.hBarPrime v = -90.
Proof.
  split; [cbn; lra|].
  destruct (ciede2000_vars_exact 1 (50, 0, -1) (50, 0, -1) (le_n 1))
    as (v & Ev & Heqs & _).
  exists v. split; [exact Ev|].
  pose proof (hPrime_exact _ _ _ (eq_h1Prime _ _ _ Heqs)) as (_ & _ & Hh1).
  pose proof (hPrime_exact _ _ _ (eq_h2Prime _ _ _ Heqs)) as (_ & _ & Hh2).
  pose proof (eq_a1Prime _ _ _ Heqs) as Ea1. pose proof (eq_a2Prime _ _ _ Heqs) as Ea2.
  pose proof (eq_c1Prime _ _ _ Heqs) as Ec1. pose proof (eq_c2Prime _ _ _ Heqs) as Ec2.
  pose proof (eq_hBarPrime _ _ _ Heqs) as EhB.
  cbn [Spec.channel] in *.
  assert (Ha1 : V2000.a1Prime v = 0) by (rewrite Ea1; exact_ops; now zero_arith).
  assert (Ha2 : V2000.a2Prime v = 0) by (rewrite Ea2; exact_ops; now zero_arith).
  assert (H1 : V2000.h1Prime v = -90).
  { rewrite Hh1 by (intros [_ F]; lra). rewrite Ha1. apply atan2d_minus_b_axis. }
  assert (H2 : V2000.h2Prime v = -90).
  { rewrite Hh2 by (intros [_ F]; lra). rewrite Ha2. apply atan2d_minus_b_axis. }
  assert (Hone : sqrt (0 * 0 + -1 * -1) = 1).
  { replace (0 * 0 + -1 * -1) with 1 by ring. apply sqrt_1. }
  assert (Hc1 : V2000.c1Prime v = 1) by (rewrite Ec1, Ha1; exact Hone).
  assert (Hc2 : V2000.c2Prime v = 1) by (rewrite Ec2, Ha2; exact Hone).
  split; [exact H1|]. split; [exact H2|].
  rewrite EhB, Hc1, Hc2, H1, H2. exact_num.
  rewrite (proj2 (Reqb_false 1 0)) by lra. cbn [orb].
  rewrite Rminus_diag, Rabs_R0, (proj2 (Rleb_true 0 180)) by lra. lra.
Qed.

(** C7.  In [cmc1984] an omitted [thresholdType] is 'acceptability', which
    selects [l = 2], [c = 1]; 'imperceptibility' and every other string
    select [l = 1], [c = 1].  [c1] and [h1] are the chroma and hue of the
    first colour; [T = 0.56 + |0.2 cos(h1 + 168)|] when [h1] is in
    [[164, 345]] and [T = 0.36 + |0.4 cos(h1 + 35)|] otherwise;
    [Sl = 0.511] when [l1 < 16] and [0.040975 l1 / (1 + 0.01765 l1)]
    otherwise; and [F], [T], [Sl], [Sc], [Sh] do not depend on the second
    colour. *)
Theorem cmc1984_threshold_and_weighting
    (fuel : nat) (x y : Color R) (thresholdType : option string) :
  in_gamut x -> in_gamut y -> (1 <= fuel)%nat ->
  exists v : V1984.t R,
    DeltaE.cmc1984_vars fuel x y thresholdType = Some v /\
    DeltaE.cmc1984 fuel (array x) (array y) thresholdType =
      Ok (Some (sqrt (V1984.firstTerm v * V1984.firstTerm v
                      + V1984.secondTerm v * V1984.secondTerm v
                      + V1984.thirdTerm v * V1984.thirdTerm v))) /\
    (V1984.l v = Q2R (fst (Spec.cmc1984_weights thresholdType)) /\
     V1984.c v = Q2R (snd (Spec.cmc1984_weights thresholdType))) /\
    labToLch fuel x = Some (Spec.channel x l_star, V1984.c1 v, V1984.h1 v) /\
    (164 <= V1984.h1 v <= 345 ->
     V1984.T v = 0.56 + Rabs (0.2 * cos (deg (V1984.h1 v + 168)))) /\
    (~ 164 <= V1984.h1 v <= 345 ->
     V1984.T v = 0.36 + Rabs (0.4 * cos (deg (V1984.h1 v + 35)))) /\
    (Spec.channel x l_star < 16 -> V1984.sl v = 0.511) /\
    (16 <= Spec.channel x l_star ->
     V1984.sl v = 0.040975 * Spec.channel x l_star
                  / (1 + 0.01765 * Spec.channel x l_star)) /\
    (forall y' : Color R,
        exists v' : V1984.t R,
          DeltaE.cmc1984_vars fuel x y' thresholdType = Some v' /\
          V1984.F v' = V1984.F v /\ V1984.T v' = V1984.T v /\
          V1984.sl v' = V1984.sl v /\ V1984.sc v' = V1984.sc v /\
          V1984.sh v' = V1984.sh v).
Proof.
  intros Hx Hy Hfuel.
  destruct (cmc1984_vars_exact fuel x y thresholdType Hfuel) as (v & Ev & Heqs & _).
  exists v. split; [exact Ev|]. split.
  { unfold DeltaE.cmc1984.
    rewrite (validateColorInputs_Ok _ _ _ _ _ (in_gamut_checkColor x false Hx)
               (in_gamut_checkColor y false Hy)).
    now rewrite (cmc1984_body_eqs _ _ _ _ _ Ev). }
  split.
  { pose proof (eq84_lc _ _ _ _ _ Heqs) as Elc. cbv zeta in Elc.
    destruct thresholdType as [s|]; cbn [Spec.cmc1984_weights].
    - destruct (string_dec s "acceptability") as [-> | Hs].
      + cbn in Elc. injection Elc as -> ->. split; reflexivity.
      + rewrite (proj2 (String.eqb_neq _ _) Hs) in Elc.
        destruct (s =? "imperceptibility")%string;
          injection Elc as -> ->; split; reflexivity.
    - cbn in Elc. injection Elc as -> ->. split; reflexivity. }
  split; [exact (eq84_lch1 _ _ _ _ _ Heqs)|].
  pose proof (eq84_T _ _ _ _ _ Heqs) as ET. pose proof (eq84_sl _ _ _ _ _ Heqs) as Esl.
  rewrite !cosd_exact in ET. exact_num.
  split; [|split; [|split; [|split]]].
  - intros [Hlo Hhi]. rewrite ET.
    rewrite (proj2 (Rleb_true 164 _)), (proj2 (Rleb_true _ 345)) by assumption.
    cbn [andb]. lra.
  - intros Hout. rewrite ET.
    destruct (Rleb 164 _) eqn:E1, (Rleb _ 345) eqn:E2; cbn [andb]; try lra.
    apply Rleb_true in E1, E2. tauto.
  - intros Hl. rewrite Esl, (proj2 (Rltb_true _ 16)) by assumption. lra.
  - intros Hl. rewrite Esl, (proj2 (Rltb_false _ 16)) by assumption. lra.
  - intros y'.
    destruct (cmc1984_vars_exact fuel x y' thresholdType Hfuel) as (v' & Ev' & Heqs' & _).
    exists v'. split; [exact Ev'|].
    pose proof (eq84_lch1 _ _ _ _ _ Heqs) as L1.
    pose proof (eq84_lch1 _ _ _ _ _ Heqs') as L1'.
    rewrite L1 in L1'. injection L1' as Ec1 Eh1.
    destruct Heqs as [_ _ _ vP4 vF vT vsl vsc vsh _ _ _ _ _ _ _].
    destruct Heqs' as [_ _ _ wP4 wF wT wsl wsc wsh _ _ _ _ _ _ _].
    assert (EP4 : V1984.c1Pow4 v' = V1984.c1Pow4 v) by congruence.
    assert (EF : V1984.F v' = V1984.F v) by congruence.
    assert (ET' : V1984.T v' = V1984.T v) by (rewrite wT, vT, <- Eh1; reflexivity).
    assert (Esl' : V1984.sl v' = V1984.sl v) by congruence.
    assert (Esc : V1984.sc v' = V1984.sc v) by congruence.
    assert (Esh : V1984.sh v' = V1984.sh v) by congruence.
    repeat split; assumption.
Qed.

Lemma cmc1984_threshold_and_weighting_witness :
  in_gamut (55, 60, 48) /\ in_gamut (55, 65, 53) /\ (1 <= 1)%nat /\
  exists v : V1984.t R,
    DeltaE.cmc1984_vars 1 (55, 60, 48) (55, 65, 53) None = Some v /\
    V1984.l v = 2 /\ V1984.c v = 1.
Proof.
  split; [exact in_gamut_55_60_48|]. split; [exact in_gamut_55_65_53|].
  split; [exact (le_n 1)|].
  destruct (cmc1984_threshold_and_weighting 1 (55, 60, 48) (55, 65, 53) None
              in_gamut_55_60_48 in_gamut_55_65_53 (le_n 1))
    as (v & Ev & _ & [El Ec] & _).
  exists v. split; [exact Ev|].
  rewrite El, Ec. cbn [Spec.cmc1984_weights fst snd]. unfold Q2R. cbn. lra.
Defined.
End ExactProperties.

Section Binary64Properties.
Import Binary64 Binary64Facts.
Local Open Scope float_scope.

(** C6.  For valid colours [cie1994] returns
    [sqrt((dL/(kl sl))^2 + (dC/(kc sc))^2 + (dH/(kh sh))^2)] with [sl = 1],
    [sc = 1 + k1 c1], [sh = 1 + k2 c2], [kc = kh = 1], [c1] and [c2] the
    chromas of the reference and of the sample, and the weights of the
    application type: [k1 = 0.045], [k2 = 0.015], [kl = 1] for graphicArts
    and every unrecognised value, [k1 = 0.048], [k2 = 0.014], [kl = 2] for
    textiles; [getklValueFromType] returns that [kl].  The result depends on
    the order of the arguments: from [50,0,0] to [50,10,0] it is 10, the
    other way round about 6.9. *)
Theorem cie1994_weights_and_formula
    (num : Type) (N : JSNumber num) (x y : list num) (ref sample : Color num)
    (applicationType : option string) (s : string) :
  _checkColor x false = Ok ref -> _checkColor y false = Ok sample ->
  DeltaE.cie1994 x y applicationType = Ok (Spec.cie1994 ref sample applicationType) /\
  getklValueFromType s = literal (Spec.getKlValue s) /\
  (DeltaE.cie1994 (lab 50 0 0) (lab 50 10 0) None = Ok 10 /\
   DeltaE.cie1994 (lab 50 10 0) (lab 50 0 0) None = Ok 6.8965517241379315).
Proof.
  intros Hx Hy. split; [|split].
  - unfold DeltaE.cie1994. rewrite (validateColorInputs_Ok _ _ _ _ _ Hx Hy).
    now rewrite cie1994_body_refines.
  - apply getklValueFromType_spec.
  - split; vm_compute; reflexivity.
Qed.

Lemma checkColor_55_60_48 : _checkColor (lab 55 60 48) false = Ok (55, 60, 48).
Proof. vm_compute. reflexivity. Defined.

Lemma checkColor_55_65_53 : _checkColor (lab 55 65 53) false = Ok (55, 65, 53).
Proof. vm_compute. reflexivity. Defined.

Lemma cie1994_weights_and_formula_witness :
  _checkColor (lab 55 60 48) false = Ok (55, 60, 48) /\
  _checkColor (lab 55 65 53) false = Ok (55, 65, 53) /\
  DeltaE.cie1994 (lab 55 60 48) (lab 55 65 53) (Some "textiles"%string)
  = Ok (Spec.cie1994 (55, 60, 48) (55, 65, 53) (Some "textiles"%string)) /\
  getklValueFromType "textiles" = 2.
Proof.
  split; [exact checkColor_55_60_48|]. split; [exact checkColor_55_65_53|].
  destruct (cie1994_weights_and_formula float _ (lab 55 60 48) (lab 55 65 53)
              (55, 60, 48) (55, 65, 53) (Some "textiles"%string) "textiles"
              checkColor_55_60_48 checkColor_55_65_53) as (E & K & _).
  split; [exact E|]. exact K.
Defined.

Lemma checkColor_50_0_0 : _checkColor (lab 50 0 0) false = Ok (50, 0, 0).
Proof. vm_compute. reflexivity. Defined.

Lemma checkColor_50_1_1 : _checkColor (lab 50 1 1) false = Ok (50, 1, 1).
Proof. vm_compute. reflexivity. Defined.

(** C9.  For the valid colours [50, 0, 0] and [50, 1, 1] the radicand
    [dA^2 + dB^2 - dC^2] of [deltaH] is negative in binary64, in [cie1994] and
    in [cmc1984] alike ([sqrt 2] rounds up, so its square exceeds 2), its
    square root is [NaN], and both formulas return [NaN].  For [cmc1984] the
    host's [Math.atan2(1, 1)] is taken to be the double nearest [PI/4], as the
    repository's test of [atan2d(1, 1)] expects. *)
Theorem negative_radicand_gives_NaN (host : JSMath float) (fuel : nat) :
  Math_atan2 1 1 = 0.7853981633974483 ->
  _checkColor (lab 50 0 0) false = Ok (50, 0, 0) /\
  _checkColor (lab 50 1 1) false = Ok (50, 1, 1) /\
  (let v := DeltaE.cie1994_vars (50, 0, 0) (50, 1, 1) None in
   (V1994.deltaA v * V1994.deltaA v + V1994.deltaB v * V1994.deltaB v
    - V1994.deltaC v * V1994.deltaC v <? 0) = true /\
   V1994.deltaH v = nan /\
   DeltaE.cie1994 (lab 50 0 0) (lab 50 1 1) None = Ok nan) /\
  (exists v : V1984.t float,
      DeltaE.cmc1984_vars fuel (50, 0, 0) (50, 1, 1) None = Some v /\
      (V1984.deltaA v * V1984.deltaA v + V1984.deltaB v * V1984.deltaB v
       - V1984.deltaC v * V1984.deltaC v <? 0) = true /\
      V1984.deltaH v = nan /\
      DeltaE.cmc1984 fuel (lab 50 0 0) (lab 50 1 1) None = Ok (Some nan)).
Proof.
  intros Hatan.
  split; [exact checkColor_50_0_0|]. split; [exact checkColor_50_1_1|].
  split.
  - cbv zeta. repeat split; vm_compute; reflexivity.
  - pose proof (labToLch_grey host fuel) as E1.
    pose proof (labToLch_diagonal host fuel Hatan) as E2.
    assert (exists v, DeltaE.cmc1984_vars fuel (50, 0, 0) (50, 1, 1) None = Some v)
      as [v Ev].
    { unfold DeltaE.cmc1984_vars. cbv zeta. rewrite E1, E2. eexists. reflexivity. }
    exists v. split; [exact Ev|].
    pose proof (cmc1984_vars_eqs _ _ _ _ _ Ev) as Heqs.
    pose proof (eq84_lch1 _ _ _ _ _ Heqs) as L1.
    destruct (eq84_lch2 _ _ _ _ _ Heqs) as [H2 L2].
    rewrite E1 in L1. rewrite E2 in L2.
    injection L1 as Ec1 Eh1. injection L2 as Ec2 _.
    pose proof (eq84_deltaA _ _ _ _ _ Heqs) as EdA.
    pose proof (eq84_deltaB _ _ _ _ _ Heqs) as EdB.
    pose proof (eq84_deltaC _ _ _ _ _ Heqs) as EdC.
    pose proof (eq84_deltaH _ _ _ _ _ Heqs) as EdH.
    pose proof (eq84_thirdTerm _ _ _ _ _ Heqs) as Et3.
    rewrite <- Ec1, <- Ec2 in EdC. cbn [Spec.channel] in EdA, EdB.
    assert (Hrad : (V1984.deltaA v * V1984.deltaA v + V1984.deltaB v * V1984.deltaB v
                    - V1984.deltaC v * V1984.deltaC v <? 0) = true).
    { rewrite EdA, EdB, EdC. vm_compute. reflexivity. }
    assert (HdH : V1984.deltaH v = nan).
    { rewrite EdH, EdA, EdB, EdC. vm_compute. reflexivity. }
    split; [exact Hrad|]. split; [exact HdH|].
    unfold DeltaE.cmc1984.
    rewrite (validateColorInputs_Ok _ _ _ _ _ checkColor_50_0_0 checkColor_50_1_1).
    unfold DeltaE.cmc1984_body. rewrite Ev. do 2 f_equal.
    rewrite Et3, HdH. cbn [div mul add Math_sqrt float_JSNumber].
    rewrite nan_div. change (nan * nan) with nan. rewrite add_nan. reflexivity.
Qed.

Lemma series_host_atan2_1_1 :
  Math_atan2 (JSMath := series_host) 1 1 = 0.7853981633974483.
Proof. vm_compute. reflexivity. Defined.

Lemma negative_radicand_gives_NaN_witness :
  Math_atan2 (JSMath := series_host) 1 1 = 0.7853981633974483 /\
  DeltaE.cie1994 (lab 50 0 0) (lab 50 1 1) None = Ok nan /\
  DeltaE.cmc1984 (M := series_host) 0 (lab 50 0 0) (lab 50 1 1) None = Ok (Some nan).
Proof.
  split; [exact series_host_atan2_1_1|].
  destruct (negative_radicand_gives_NaN series_host 0 series_host_atan2_1_1)
    as (_ & _ & (_ & _ & E94) & (v & _ & _ & _ & E84)).
  split; [exact E94 | exact E84].
Defined.
End Binary64Properties.


(** * Further properties of the code

    Properties of the functions above that the code shows by itself:
    validation first, then the exact reading of the trigonometric library,
    of the conversion and of the four formulas, then the binary64 reading. *)

Section ValidationFurther.
Context {num : Type} {N : JSNumber num}.
Local Open Scope js_scope.

Lemma _checkColor_range_Ok (c c' : Color num) :
  _checkColor_range c = Ok c' ->
  c' = c /\ forallb (fun e => e) (_isValidLabColor c) = true.
Proof.
  unfold _checkColor_range.
  destruct (forallb _ _); cbn [negb]; [intros [= <-]; now split | discriminate].
Qed.

Lemma _checkColor_range_Throw (c : Color num) (e : ColorError num) :
  _checkColor_range c = Throw e ->
  e = CoordinateRangeError c (_isValidLabColor c) /\
  forallb (fun e => e) (_isValidLabColor c) = false.
Proof.
  unfold _checkColor_range.
  destruct (forallb _ _); cbn [negb]; [discriminate | intros [= <-]; now split].
Qed.

Lemma _checkColor_Ok_shape (x : list num) (d : bool) (c : Color num) :
  _checkColor x d = Ok c ->
  _checkColor_range c = Ok c /\
  exists rest, x = fst (fst c) :: snd (fst c) :: snd c :: rest /\ (d = false -> rest = []).
Proof.
  destruct x as [|l [|a [|b [|e rest]]]]; cbn [_checkColor]; try discriminate.
  - intros E. destruct (_checkColor_range_Ok _ _ E) as [-> _].
    split; [exact E|]. exists []. now split.
  - destruct d; [|discriminate]. intros E.
    destruct (_checkColor_range_Ok _ _ E) as [-> _].
    split; [exact E|]. exists (e :: rest). split; [reflexivity | discriminate].
Qed.

(** X1.  Validation is idempotent: a colour that [_checkColor] returned is
    accepted again and returned unchanged, with either setting of
    [discardExcessChannels]. *)
Theorem checkColor_accepts_what_it_returned
    (x : list num) (discard discard' : bool) (l a b : num) :
  _checkColor x discard = Ok (l, a, b) ->
  _checkColor [l; a; b] discard' = Ok (l, a, b).
Proof.
  intros E. destruct (_checkColor_Ok_shape _ _ _ E) as [Hr _]. exact Hr.
Qed.

(** X2.  With [discardExcessChannels] set, [_checkColor] throws a
    [ChannelCountError] for fewer than three channels and is otherwise
    [_checkColor] without the flag on [x.slice(0, 3)]; without the flag, it
    throws a [ChannelCountError] unless there are exactly three channels,
    and then the flag makes no difference. *)
Theorem checkColor_discarding_is_slicing (x : list num) :
  _checkColor x true =
    (if (length x <? 3)%nat then Throw (ChannelCountError x 3)
     else _checkColor (firstn 3 x) false) /\
  _checkColor x false =
    (if (length x =? 3)%nat then _checkColor x true
     else Throw (ChannelCountError x 3)).
Proof.
  destruct x as [|l [|a [|b [|e rest]]]]; split; reflexivity.
Qed.

(** X3.  A [CoordinateRangeError] thrown by [_checkColor] is built from the
    first three channels of the input and from the flags of
    [_isValidLabColor]; its array [err] is never empty, and it holds exactly
    the channels that are outside their range, each with the value the
    caller passed. *)
Theorem thrown_range_error_names_the_channels
    (x : list num) (discard : bool) (c : Color num) (checks : list bool) :
  _checkColor x discard = Throw (CoordinateRangeError c checks) ->
  (3 <= length x)%nat /\
  firstn 3 x = [fst (fst c); snd (fst c); snd c] /\
  checks = _isValidLabColor c /\
  CoordinateRangeError_err c checks <> [] /\
  (forall ch v, In (ch, v) (CoordinateRangeError_err c checks) <->
                v = Spec.channel c ch /\ Spec.within_bounds ch v = false).
Proof.
  intros E.
  assert (Hshape : (3 <= length x)%nat /\
                   firstn 3 x = [fst (fst c); snd (fst c); snd c] /\
                   _checkColor_range c = Throw (CoordinateRangeError c checks)).
  { destruct x as [|l [|a [|b [|e rest]]]]; cbn [_checkColor] in E; try discriminate.
    - destruct (_checkColor_range_Throw _ _ E) as [[= -> _] _].
      cbn [length firstn fst snd]. split; [lia|]. split; [reflexivity | exact E].
    - destruct discard; [|discriminate].
      destruct (_checkColor_range_Throw _ _ E) as [[= -> _] _].
      cbn [length firstn fst snd]. split; [lia|]. split; [reflexivity | exact E]. }
  destruct Hshape as (Hlen & Hfirst & Hr).
  destruct (_checkColor_range_Throw _ _ Hr) as [[= ->] Hall].
  split; [exact Hlen|]. split; [exact Hfirst|]. split; [reflexivity|].
  rewrite CoordinateRangeError_err_spec. rewrite _isValidLabColor_bounds in Hall.
  unfold Spec.out_of_range_channels. cbn [map forallb filter] in *.
  destruct c as [[l a] b]. cbn [Spec.channel] in *.
  destruct (Spec.within_bounds l_star l) eqn:El,
    (Spec.within_bounds a_star a) eqn:Ea,
    (Spec.within_bounds b_star b) eqn:Eb; cbn in Hall |- *; try discriminate;
    (split; [discriminate|]); intros ch v; split;
    try (intros [[= <- <-] | H]; try (split; [reflexivity | assumption]);
         try destruct H as [[= <- <-] | H]; try (split; [reflexivity | assumption]);
         try destruct H as [[= <- <-] | H]; try (split; [reflexivity | assumption]);
         try contradiction);
    try (intros [-> Hb]; destruct ch; cbn; try congruence; tauto).
Qed.

(** X4.  A method decorated with [@validateColorInputs(true)] ignores the
    channels after the third of both colours; on two 3-channel colours the
    argument of the decorator makes no difference. *)
Theorem validateColorInputs_discards_excess_channels
    {A : Type} (f : Color num -> Color num -> A)
    (l1 a1 b1 l2 a2 b2 : num) (excess1 excess2 : list num) :
  validateColorInputs true f ([l1; a1; b1] ++ excess1) ([l2; a2; b2] ++ excess2)
  = validateColorInputs true f [l1; a1; b1] [l2; a2; b2] /\
  validateColorInputs true f [l1; a1; b1] [l2; a2; b2]
  = validateColorInputs false f [l1; a1; b1] [l2; a2; b2].
Proof.
  unfold validateColorInputs.
  destruct excess1, excess2; split; reflexivity.
Qed.
End ValidationFurther.

Section ValidationWitnesses.
Import Binary64.
Local Open Scope float_scope.

Lemma checkColor_accepts_what_it_returned_witness :
  _checkColor [1; 2; 3; 4] true = Ok (1, 2, 3) /\
  _checkColor [1; 2; 3] false = Ok (1, 2, 3).
Proof.
  assert (E : _checkColor [1; 2; 3; 4] true = Ok (1, 2, 3)) by (vm_compute; reflexivity).
  split; [exact E|].
  exact (checkColor_accepts_what_it_returned [1; 2; 3; 4] true false 1 2 3 E).
Defined.

Lemma thrown_range_error_names_the_channels_witness :
  _checkColor [50; 200; 0; 1] true
  = Throw (CoordinateRangeError (50, 200, 0) [true; false; true]) /\
  CoordinateRangeError_err (50, 200, 0) [true; false; true] <> [].
Proof.
  assert (E : _checkColor [50; 200; 0; 1] true
              = Throw (CoordinateRangeError (50, 200, 0) [true; false; true]))
    by (vm_compute; reflexivity).
  split; [exact E|].
  exact (proj1 (proj2 (proj2 (proj2
           (thrown_range_error_names_the_channels _ _ _ _ E))))).
Defined.
End ValidationWitnesses.

Section ExactFurther.
Import Exact ExactFacts.
Local Open Scope R_scope.






















Lemma validate_in_gamut {A : Type} (f : Color R -> Color R -> A) (x y : Color R) :
  in_gamut x -> in_gamut y ->
  validateColorInputs false f (array x) (array y) = Ok (f x y).
Proof.
  intros Hx Hy.
  exact (validateColorInputs_Ok _ _ _ _ _ (in_gamut_checkColor x false Hx)
           (in_gamut_checkColor y false Hy)).
Qed.


Lemma in_gamut_50_3_4 : in_gamut (50, 3, 4).
Proof. cbn. lra. Defined.


















Lemma cmc1984_weights_pos (fuel : nat) (x y : Color R) (t : option string)
    (v : V1984.t R) :
  cmc1984_eqs fuel x y t v ->
  (V1984.l v = 1 \/ V1984.l v = 2) /\ V1984.c v = 1 /\
  0 < V1984.sl v /\ 0 < V1984.sc v /\ 0 < V1984.sh v /\
  V1984.deltaH v * V1984.deltaH v
  = V1984.deltaA v * V1984.deltaA v + V1984.deltaB v * V1984.deltaB v
    - V1984.deltaC v * V1984.deltaC v.
Proof.
  intros Heqs.
  destruct (cmc1984_well_defined _ _ _ _ _ Heqs) as (_ & _ & Hrad).
  destruct Heqs as [vlc vlch1 [H2 vlch2] vP4 vF vT vsl vsc vsh vdA vdB vdC vdH
                    vt1 vt2 vt3].
  destruct x as [[l1 a1] b1], y as [[l2 a2] b2].
  pose proof (labToLch_chroma _ _ _ _ _ vlch1) as Ec1.
  cbn [fst snd Spec.channel] in *.
  pose proof (sqrt_pos (a1 * a1 + b1 * b1)) as P1. rewrite <- Ec1 in P1.
  assert (HP4 : 0 <= V1984.c1Pow4 v).
  { rewrite vP4. cbn [mul R_JSNumber].
    replace (V1984.c1 v * V1984.c1 v * V1984.c1 v * V1984.c1 v)
      with (Rsqr (V1984.c1 v * V1984.c1 v)) by (unfold Rsqr; ring).
    apply Rle_0_sqr. }
  destruct (ratio_sqrt_unit _ 1900 HP4 ltac:(lra)) as (Hratio & HF0 & HF1).
  assert (HF : 0 <= V1984.F v <= 1).
  { rewrite vF. exact_num. exact (conj HF0 HF1). }
  assert (HT : 0.36 <= V1984.T v).
  { rewrite vT. destruct (_ && _); exact_num;
      match goal with |- context [Rabs ?z] => pose proof (Rabs_pos z) end; lra. }
  assert (Hsl : 0 < V1984.sl v).
  { rewrite vsl. exact_num. destruct (Rltb l1 16) eqn:E; [lra|].
    apply Rltb_false in E.
    apply Rmult_lt_0_compat; [lra|]. apply Rinv_0_lt_compat. lra. }
  assert (Hsc : 0.638 <= V1984.sc v).
  { rewrite vsc. exact_num.
    assert (0 <= 638 * / 10000 * V1984.c1 v / (1 + 131 * / 10000 * V1984.c1 v)).
    { apply Rmult_le_pos; [lra|]. left. apply Rinv_0_lt_compat. lra. }
    lra. }
  assert (Hsh : 0 < V1984.sh v).
  { rewrite vsh. exact_num. apply Rmult_lt_0_compat; [lra|].
    assert (0 <= V1984.F v * (V1984.T v - 0.36)) by (apply Rmult_le_pos; lra).
    lra. }
  assert (Hlc : (V1984.l v = 1 \/ V1984.l v = 2) /\ V1984.c v = 1).
  { cbv zeta in vlc.
    destruct (_ =? "acceptability")%string;
      [|destruct (_ =? "imperceptibility")%string];
      injection vlc as -> ->; exact_num; split; auto. }
  destruct Hlc as [Hl Hc].
  split; [exact Hl|]. split; [exact Hc|]. split; [exact Hsl|].
  split; [lra|]. split; [exact Hsh|].
  rewrite vdH. exact_ops. now apply sqrt_sqrt.
Qed.








Lemma sqrt_square_quotient (u s : R) :
  0 < s -> sqrt (u * / s * (u * / s)) = Rabs u * / s.
Proof.
  intros Hs.
  replace (u * / s * (u * / s)) with (Rsqr (u * / s)) by (unfold Rsqr; ring).
  rewrite sqrt_Rsqr_abs, Rabs_mult, Rabs_inv, (Rabs_right s) by lra.
  reflexivity.
Qed.



Lemma cmc1984_body_lightness (fuel : nat) (l1 l2 a b : R) (t : option string) :
  (1 <= fuel)%nat ->
  DeltaE.cmc1984_body fuel (l1, a, b) (l2, a, b) t
  = Some (Rabs (l1 - l2)
          / ((match t with
              | Some s => if (s =? "acceptability")%string then 2 else 1
              | None => 2
              end)
             * (if Rltb l1 16 then 0.511
                else 0.040975 * l1 / (1 + 0.01765 * l1)))).
Proof.
  intros Hfuel.
  destruct (cmc1984_vars_exact fuel (l1, a, b) (l2, a, b) t Hfuel)
    as (v & Ev & Heqs & _ & Ec1 & Ec2).
  rewrite (cmc1984_body_eqs _ _ _ _ _ Ev). f_equal.
  destruct (cmc1984_weights_pos _ _ _ _ _ Heqs) as (Hl & Hc & Hsl & Hsc & Hsh & HH).
  assert (Hlv : V1984.l v = match t with
                            | Some s => if (s =? "acceptability")%string then 2 else 1
                            | None => 2
                            end).
  { pose proof (eq84_lc _ _ _ _ _ Heqs) as vlc. cbv zeta in vlc.
    destruct t as [s|]; cbn in vlc.
    - destruct (s =? "acceptability")%string;
        [|destruct (s =? "imperceptibility")%string];
        injection vlc as -> _; exact_num; reflexivity.
    - injection vlc as -> _. exact_num. reflexivity. }
  assert (Hslv : V1984.sl v = if Rltb l1 16 then 0.511
                              else 0.040975 * l1 / (1 + 0.01765 * l1)).
  { rewrite (eq84_sl _ _ _ _ _ Heqs). cbn [Spec.channel]. exact_num.
    destruct (Rltb l1 16); lra. }
  assert (EdC : V1984.deltaC v = 0).
  { rewrite (eq84_deltaC _ _ _ _ _ Heqs), Ec1, Ec2. unfold Spec.chroma.
    exact_ops. apply Rminus_diag. }
  assert (EdH : V1984.deltaH v = 0).
  { assert (Hz : V1984.deltaH v * V1984.deltaH v = 0).
    { rewrite HH, EdC, (eq84_deltaA _ _ _ _ _ Heqs), (eq84_deltaB _ _ _ _ _ Heqs).
      cbn [Spec.channel]. exact_ops. ring. }
    nra. }
  rewrite (eq84_firstTerm _ _ _ _ _ Heqs), (eq84_secondTerm _ _ _ _ _ Heqs),
    (eq84_thirdTerm _ _ _ _ _ Heqs), <- (eq84_deltaC _ _ _ _ _ Heqs), EdC, EdH,
    <- Hlv, <- Hslv.
  cbn [Spec.channel]. exact_ops. zero_arith.
  apply sqrt_square_quotient. destruct Hl as [-> | ->]; lra.
Qed.


Lemma in_gamut_10_3_4 : in_gamut (10, 3, 4).
Proof. cbn. lra. Defined.


Lemma cmc1984_sl_threshold (l : R) :
  16 <= l -> 0.511 < 0.040975 * l / (1 + 0.01765 * l).
Proof.
  intros Hl. apply Rmult_lt_reg_r with (1 + 0.01765 * l); [lra|].
  unfold Rdiv. rewrite Rmult_assoc, Rinv_l by lra. lra.
Qed.

(** X17.  [cmc1984] is not symmetric: its weights are those of the first
    colour.  For two valid colours with the same [a] and [b], one with
    [L < 16] and one with [L >= 16], the distance from the darker to the
    lighter is larger than the distance from the lighter to the darker. *)
Theorem cmc1984_is_not_symmetric
    (fuel : nat) (l1 l2 a b : R) (thresholdType : option string) :
  in_gamut (l1, a, b) -> in_gamut (l2, a, b) -> (1 <= fuel)%nat ->
  l1 < 16 <= l2 ->
  exists d d' : R,
    DeltaE.cmc1984 fuel [l1; a; b] [l2; a; b] thresholdType = Ok (Some d) /\
    DeltaE.cmc1984 fuel [l2; a; b] [l1; a; b] thresholdType = Ok (Some d') /\
    d' < d.
Proof.
  intros Hx Hy Hfuel Hl.
  unfold DeltaE.cmc1984.
  rewrite (validate_in_gamut _ (l1, a, b) (l2, a, b) Hx Hy).
  rewrite (validate_in_gamut _ (l2, a, b) (l1, a, b) Hy Hx).
  rewrite !cmc1984_body_lightness by assumption.
  do 2 eexists. split; [reflexivity|]. split; [reflexivity|].
  rewrite (proj2 (Rltb_true l1 16)) by lra.
  rewrite (proj2 (Rltb_false l2 16)) by lra.
  pose proof (cmc1984_sl_threshold l2 (proj2 Hl)) as Hs.
  set (s2 := 0.040975 * l2 / (1 + 0.01765 * l2)) in *.
  set (k := match thresholdType with
            | Some s => if (s =? "acceptability")%string then 2 else 1
            | None => 2
            end).
  assert (Hk : 0 < k) by (unfold k; destruct thresholdType as [s|];
                          [destruct (s =? "acceptability")%string|]; lra).
  rewrite (Rabs_minus_sym l2 l1).
  assert (Hd : 0 < Rabs (l1 - l2)) by (apply Rabs_pos_lt; lra).
  unfold Rdiv. apply Rmult_lt_compat_l; [exact Hd|].
  apply Rinv_lt_contravar; nra.
Qed.

Lemma lightness_10_50 : 10 < 16 <= 50.
Proof. lra. Defined.

Lemma cmc1984_is_not_symmetric_witness :
  in_gamut (10, 3, 4) /\ in_gamut (50, 3, 4) /\ (1 <= 1)%nat /\ 10 < 16 <= 50 /\
  exists d d' : R,
    DeltaE.cmc1984 1 [10; 3; 4] [50; 3; 4] None = Ok (Some d) /\
    DeltaE.cmc1984 1 [50; 3; 4] [10; 3; 4] None = Ok (Some d') /\
    d' < d.
Proof.
  split; [exact in_gamut_10_3_4|]. split; [exact in_gamut_50_3_4|].
  split; [exact (le_n 1)|]. split; [exact lightness_10_50|].
  exact (cmc1984_is_not_symmetric 1 10 50 3 4 None
           in_gamut_10_3_4 in_gamut_50_3_4 (le_n 1) lightness_10_50).
Defined.







Lemma ciede2000_weights_bounds (x y : Color R) (v : V2000.t R) :
  ciede2000_eqs x y v -> 0 <= V2000.c1 v -> 0 <= V2000.c2 v ->
  0 <= V2000.cCoeff v < 1 /\
  1 <= V2000.sl v /\ 1 <= V2000.sc v /\ 1 <= V2000.sh v /\
  -2 < V2000.Rt v < 2 /\
  0.07 <= V2000.T v <= 1.93.
Proof.
  intros Heqs Hc1 Hc2.
  destruct Heqs as [vdL vlBar vcBar vP7 vcC va1 va2 vc1 vc2 vcB vdC vh1 vh2
                    vdh vdH vhB vT vslC vsl vsc vsh vRtC vRt vkl vkc vkh
                    vt1 vt2 vt3 vt4].
  assert (HcBar : 0 <= V2000.cBar v).
  { rewrite vcBar. exact_num. lra. }
  assert (HP7 : 0 <= V2000.cBarPow7 v).
  { rewrite vP7. cbn [Math_pow R_JSMath literal R_JSNumber]. rewrite Rpow_7.
    now apply pow_le. }
  assert (H25 : 0 < Math_pow ($25)%js ($7)%js).
  { cbn [Math_pow R_JSMath literal R_JSNumber]. rewrite Rpow_7.
    apply pow_lt. unfold Q2R. cbn. lra. }
  destruct (ratio_sqrt_unit _ _ HP7 H25) as (Hratio & HcC0 & _).
  assert (Hlt : V2000.cBarPow7 v / (V2000.cBarPow7 v + Math_pow ($25)%js ($7)%js) < 1).
  { apply Rmult_lt_reg_r with (V2000.cBarPow7 v + Math_pow ($25)%js ($7)%js); [lra|].
    unfold Rdiv. rewrite Rmult_assoc, Rinv_l; lra. }
  assert (HcC : 0 <= V2000.cCoeff v < 1).
  { rewrite vcC. split; [exact HcC0|].
    apply Rlt_le_trans with (sqrt 1); [|rewrite sqrt_1; lra].
    apply sqrt_lt_1_alt. split; assumption. }
  assert (HslC : 0 <= V2000.slCoeff v).
  { rewrite vslC. cbn [mul R_JSNumber]. apply Rle_0_sqr. }
  assert (Hsq : 0 < sqrt (20 + V2000.slCoeff v)) by (apply sqrt_lt_R0; lra).
  assert (Hsl : 1 <= V2000.sl v).
  { rewrite vsl. exact_num.
    assert (0 <= 15 * / 1000 * V2000.slCoeff v / sqrt (20 + V2000.slCoeff v)).
    { apply Rmult_le_pos; [lra|]. left. now apply Rinv_0_lt_compat. }
    lra. }
  assert (Hc1p : 0 <= V2000.c1Prime v) by (rewrite vc1; apply sqrt_pos).
  assert (Hc2p : 0 <= V2000.c2Prime v) by (rewrite vc2; apply sqrt_pos).
  assert (HcB : 0 <= V2000.cBarPrime v) by (rewrite vcB; exact_num; lra).
  assert (Hsc : 1 <= V2000.sc v) by (rewrite vsc; exact_num; nra).
  assert (HT : 0.07 <= V2000.T v <= 1.93).
  { rewrite vT, !cosd_exact. exact_num.
    pose proof (COS_bound (deg (V2000.hBarPrime v - 30))).
    pose proof (COS_bound (deg (2 * V2000.hBarPrime v))).
    pose proof (COS_bound (deg (3 * V2000.hBarPrime v + 6))).
    pose proof (COS_bound (deg (4 * V2000.hBarPrime v - 63))).
    lra. }
  assert (Hsh : 1 <= V2000.sh v) by (rewrite vsh; exact_num; nra).
  assert (HRt : -2 < V2000.Rt v < 2).
  { rewrite vRt, sind_exact. exact_num.
    pose proof (SIN_bound (deg (V2000.RtCoeff v))) as Hs.
    assert (-1 < V2000.cCoeff v * sin (deg (V2000.RtCoeff v)) < 1) by nra.
    lra. }
  repeat split; try lra.
Qed.













(** X22.  [ciede2000] is defined for all real colours: it returns after at
    most one execution of a loop body of [labToLch], no divisor is 0 ([Sl],
    [Sc] and [Sh] are at least 1), no radicand is negative, and
    [0 <= cCoeff < 1], [0.07 <= T <= 1.93] and [-2 < Rt < 2]. *)
Theorem ciede2000_is_defined_over_the_reals (fuel : nat) (x y : Color R) :
  (1 <= fuel)%nat ->
  exists v : V2000.t R,
    DeltaE.ciede2000_vars fuel x y = Some v /\
    0 < V2000.cBarPow7 v + Math_pow ($25)%js ($7)%js /\
    0 <= V2000.cBarPow7 v / (V2000.cBarPow7 v + Math_pow ($25)%js ($7)%js) /\
    0 <= V2000.cCoeff v < 1 /\
    0 < sqrt (20 + V2000.slCoeff v) /\
    0 <= V2000.c1Prime v * V2000.c2Prime v /\
    V2000.kl v = 1 /\ V2000.kc v = 1 /\ V2000.kh v = 1 /\
    1 <= V2000.sl v /\ 1 <= V2000.sc v /\ 1 <= V2000.sh v /\
    0.07 <= V2000.T v <= 1.93 /\
    -2 < V2000.Rt v < 2 /\
    0 <= V2000.firstTerm v * V2000.firstTerm v
         + V2000.secondTerm v * V2000.secondTerm v
         + V2000.thirdTerm v * V2000.thirdTerm v + V2000.fourthTerm v.
Proof.
  intros Hfuel.
  destruct (ciede2000_vars_exact fuel x y Hfuel) as (v & Ev & Heqs & Ec1 & Ec2).
  exists v. split; [exact Ev|].
  assert (Hc1 : 0 <= V2000.c1 v).
  { rewrite Ec1. destruct x as [[l1 a1] b1]. apply sqrt_pos. }
  assert (Hc2 : 0 <= V2000.c2 v).
  { rewrite Ec2. destruct y as [[l2 a2] b2]. apply sqrt_pos. }
  destruct (ciede2000_weights_bounds _ _ _ Heqs Hc1 Hc2)
    as (HcC & Hsl & Hsc & Hsh & HRt & HT).
  destruct (ciede2000_well_defined _ _ _ Heqs Hc1 Hc2)
    as ((Hd & Hs & _) & Hratio & Hrs & Hcc & Hrad).
  assert (HcBar : 0 <= V2000.cBar v).
  { rewrite (eq_cBar _ _ _ Heqs). exact_num. lra. }
  assert (HP7 : 0 <= V2000.cBarPow7 v).
  { rewrite (eq_cBarPow7 _ _ _ Heqs).
    cbn [Math_pow R_JSMath literal R_JSNumber]. rewrite Rpow_7.
    now apply pow_le. }
  assert (H25 : 0 < Math_pow ($25)%js ($7)%js).
  { cbn [Math_pow R_JSMath literal R_JSNumber]. rewrite Rpow_7.
    apply pow_lt. unfold Q2R. cbn. lra. }
  split; [lra|]. split; [exact Hratio|]. split; [exact HcC|].
  assert (HslC : 0 <= V2000.slCoeff v).
  { rewrite (eq_slCoeff _ _ _ Heqs). cbn [mul R_JSNumber]. apply Rle_0_sqr. }
  split; [apply sqrt_lt_R0; lra|]. split; [exact Hcc|].
  split; [rewrite (eq_kl _ _ _ Heqs); exact_num; reflexivity|].
  split; [rewrite (eq_kc _ _ _ Heqs); exact_num; reflexivity|].
  split; [rewrite (eq_kh _ _ _ Heqs); exact_num; reflexivity|].
  repeat (split; [assumption|]). exact Hrad.
Qed.

Lemma ciede2000_is_defined_over_the_reals_witness :
  (1 <= 1)%nat /\
  exists v : V2000.t R,
    DeltaE.ciede2000_vars 1 (50, 3, 4) (10, 0, 0) = Some v /\
    0 < V2000.cBarPow7 v + Math_pow ($25)%js ($7)%js /\
    0 <= V2000.cBarPow7 v / (V2000.cBarPow7 v + Math_pow ($25)%js ($7)%js) /\
    0 <= V2000.cCoeff v < 1 /\
    0 < sqrt (20 + V2000.slCoeff v) /\
    0 <= V2000.c1Prime v * V2000.c2Prime v /\
    V2000.kl v = 1 /\ V2000.kc v = 1 /\ V2000.kh v = 1 /\
    1 <= V2000.sl v /\ 1 <= V2000.sc v /\ 1 <= V2000.sh v /\
    0.07 <= V2000.T v <= 1.93 /\
    -2 < V2000.Rt v < 2 /\
    0 <= V2000.firstTerm v * V2000.firstTerm v
         + V2000.secondTerm v * V2000.secondTerm v
         + V2000.thirdTerm v * V2000.thirdTerm v + V2000.fourthTerm v.
Proof.
  split; [exact (le_n 1)|].
  exact (ciede2000_is_defined_over_the_reals 1 (50, 3, 4) (10, 0, 0) (le_n 1)).
Defined.



End ExactFurther.

Section Binary64Further.
Import Binary64 Binary64Facts.
Local Open Scope float_scope.

Lemma SFeqb_finite (s : bool) (m : positive) (e : Z) :
  SFeqb (S754_finite s m e) (S754_finite s m e) = true.
Proof.
  unfold SFeqb, SFcompare. rewrite Z.compare_refl, Pos.compare_cont_refl.
  destruct s; reflexivity.
Qed.

Lemma is_finite_between (lo hi x : float) :
  is_finite lo = true -> is_finite hi = true ->
  (lo <=? x) = true -> (x <=? hi) = true -> is_finite x = true.
Proof.
  unfold is_finite, is_nan, is_infinity.
  rewrite !FloatAxioms.leb_spec, !FloatAxioms.eqb_spec, !FloatAxioms.abs_spec.
  change (Prim2SF infinity) with (S754_infinity false).
  destruct (Prim2SF x) as [s | s | | s m e].
  - intros _ _ _ _. destruct s; reflexivity.
  - destruct s.
    + destruct (Prim2SF lo) as [? | [|] | | [|] ? ?]; cbn; intros; congruence.
    + destruct (Prim2SF hi) as [? | [|] | | [|] ? ?]; cbn; intros; congruence.
  - destruct (Prim2SF lo); cbn; intros; congruence.
  - intros _ _ _ _. cbn [SFabs]. rewrite !SFeqb_finite. reflexivity.
Qed.

(** X24.  In binary64, every channel of a colour that [_checkColor] returns
    is a finite number: [NaN] and the infinities are rejected, since every
    comparison with [NaN] is false. *)
Theorem validated_channels_are_finite_numbers
    (x : list float) (discard : bool) (l a b : float) :
  _checkColor x discard = Ok (l, a, b) ->
  is_finite l = true /\ is_finite a = true /\ is_finite b = true.
Proof.
  intros E. destruct (_checkColor_Ok_shape _ _ _ E) as [Hr _].
  destruct (_checkColor_range_Ok _ _ Hr) as [_ Hall].
  unfold _isValidLabColor in Hall. cbn [forallb] in Hall.
  repeat (apply andb_prop in Hall; destruct Hall as [? Hall]).
  repeat match goal with H : (_ && _)%bool = true |- _ =>
    apply andb_prop in H; destruct H end.
  repeat split; eapply is_finite_between; try eassumption; vm_compute; reflexivity.
Qed.
Lemma validated_channels_are_finite_numbers_witness :
  _checkColor [50; 1; -1; 7] true = Ok (50, 1, -1) /\
  is_finite 50 = true /\ is_finite 1 = true /\ is_finite (-1) = true.
Proof.
  assert (E : _checkColor [50; 1; -1; 7] true = Ok (50, 1, -1))
    by (vm_compute; reflexivity).
  split; [exact E|].
  exact (validated_channels_are_finite_numbers [50; 1; -1; 7] true 50 1 (-1) E).
Defined.

(** X25.  In binary64 and on every host, [labToLch] returns [[L, 0, 0]] for
    a colour with [a] and [b] each [0] or [-0], without running a loop body:
    the chroma is [+0], and the guard [C <= 0] sets the hue to 0 where
    [atan2] would give 0, [-0], pi or [-pi]. *)
Theorem labToLch_of_a_grey_needs_no_host
    (host : JSMath float) (fuel : nat) (L a b : float) :
  In a [0; -0] -> In b [0; -0] ->
  labToLch fuel (L, a, b) = Some (L, 0, 0).
Proof.
  intros Ha Hb.
  assert (EC : Math_sqrt (a * a + b * b)%js = 0).
  { cbn [In] in Ha, Hb.
    destruct Ha as [<- | [<- | []]], Hb as [<- | [<- | []]]; vm_compute; reflexivity. }
  unfold labToLch. rewrite EC.
  rewrite !while_done by reflexivity. reflexivity.
Qed.

Lemma In_zero : In 0 [0; -0].
Proof. left. reflexivity. Defined.

Lemma In_minus_zero : In (-0) [0; -0].
Proof. right. left. reflexivity. Defined.

Lemma labToLch_of_a_grey_needs_no_host_witness :
  In (-0) [0; -0] /\ In 0 [0; -0] /\
  labToLch (M := series_host) 0 (50, -0, 0) = Some (50, 0, 0).
Proof.
  split; [exact In_minus_zero|]. split; [exact In_zero|].
  exact (labToLch_of_a_grey_needs_no_host series_host 0 50 (-0) 0
           In_minus_zero In_zero).
Defined.
End Binary64Further.
